(** * ipcalc-go: an IPv4 subnet calculator

    A shallow embedding of the address codec, the network descriptor and
    the subnet partitioner of [main.go], together with the parts of the Go
    standard library they call ([strconv.ParseUint], [strings.Split],
    [encoding/binary], [math.Exp2], [math/bits], [fmt.Sscanf]).

    Conventions.
    - A [uint32] is a [Z] in the range 0 .. 2^32-1; every operation that can
      leave that range in Go is followed by [wrap32].
    - A Go [string] is a Rocq [string]: a sequence of 8-bit bytes.
    - A Go pointer [*T] that is only read is an [option T], [None] being nil.
    - A Go function returning [(T, error)] returns a pair whose second
      component is an [option error], [None] being the nil error.  A run
      that panics is [Panic]; a run that returns is [Done].
    - The target is a 64-bit one: [int] and [uint] are 64 bits wide, and
      [float64] is IEEE 754 binary64, computed with Rocq's primitive
      floats. *)

From Stdlib Require Import ZArith Lia Bool Ascii String Floats.
From Stdlib Require Import DecimalString.
From stdpp Require Import base tactics option list.

Local Open Scope string_scope.
Local Open Scope list_scope.
Local Open Scope Z_scope.

(* ===================================================================== *)
(** * Go runtime *)
(* ===================================================================== *)

(** Outcome of running a Go function: it returns or it panics. *)
Inductive exec (A : Type) : Type :=
| Done (a : A)
| Panic (msg : string).
Arguments Done {A} a.
Arguments Panic {A} msg.

Definition exec_bind {A B} (m : exec A) (k : A -> exec B) : exec B :=
  match m with
  | Done a => k a
  | Panic msg => Panic msg
  end.

Notation "x <-! m ; k" := (exec_bind m (fun x => k))
  (at level 100, m at next level, right associativity).

(** Values of Go's [error] interface that this program can meet. *)
Inductive error : Type :=
| IPv4Error (msg : string)                 (* type IPv4Error string *)
| ErrRange                                 (* strconv.ErrRange *)
| ErrSyntax                                (* strconv.ErrSyntax *)
| NumError (func num : string) (err : error) (* *strconv.NumError *)
| EOF                                      (* io.EOF *)
| ErrUnexpectedEOF                         (* io.ErrUnexpectedEOF *)
| ErrorString (msg : string).              (* errors.New(msg) *)

Fixpoint error_eqb (e1 e2 : error) : bool :=
  match e1, e2 with
  | IPv4Error a, IPv4Error b => String.eqb a b
  | ErrRange, ErrRange => true
  | ErrSyntax, ErrSyntax => true
  | NumError f1 n1 x1, NumError f2 n2 x2 =>
      String.eqb f1 f2 && String.eqb n1 n2 && error_eqb x1 x2
  | EOF, EOF => true
  | ErrUnexpectedEOF, ErrUnexpectedEOF => true
  | ErrorString a, ErrorString b => String.eqb a b
  | _, _ => false
  end.

(** [errors.Is]: equality with the target somewhere along the Unwrap chain. *)
Fixpoint errors_Is (err target : error) : bool :=
  error_eqb err target ||
  match err with
  | NumError _ _ inner => errors_Is inner target
  | _ => false
  end.

(* ===================================================================== *)
(** * Fixed-width integers *)
(* ===================================================================== *)

Definition wrap (bits : Z) (z : Z) : Z := z mod 2 ^ bits.
Definition wrap32 (z : Z) : Z := wrap 32 z.
Definition wrap64 (z : Z) : Z := wrap 64 z.

(** Membership in the type [uintN]. *)
Definition is_uint (bits : Z) (z : Z) : Prop := 0 <= z < 2 ^ bits.
Definition is_uint32 (z : Z) : Prop := is_uint 32 z.

(** Go's [a + b], [a - b], [^a] and [a & b] at type [uint32]. *)
Definition add32 (a b : Z) : Z := wrap32 (a + b).
Definition sub32 (a b : Z) : Z := wrap32 (a - b).
Definition not32 (a : Z) : Z := wrap32 (Z.lnot a).
Definition and32 (a b : Z) : Z := Z.land a b.

(** The value of a byte of a string. *)
Definition byte_val (c : ascii) : Z := Z.of_N (N_of_ascii c).

(* ===================================================================== *)
(** * The network descriptor *)
(* ===================================================================== *)

(** [type IPv4Address struct { Addr uint32; Description string }] *)
Record IPv4Address : Type := mkIPv4Address {
  Addr : Z;
  Description : string;
}.

(** [type Network struct]: seven pointers to [IPv4Address]. *)
Record Network : Type := mkNetwork {
  address : option IPv4Address;
  mask : option IPv4Address;
  network : option IPv4Address;
  hostMin : option IPv4Address;
  hostMax : option IPv4Address;
  broadcast : option IPv4Address;
  hostsPerNet : option IPv4Address;
}.

(** The zero value of [Network], as [make([]Network, n)] fills a slice. *)
Definition zeroNetwork : Network :=
  mkNetwork None None None None None None None.

(** [func NewNetwork(address, mask uint32) *Network] *)
Definition NewNetwork (address mask : Z) : Network :=
  let ip_address := address in
  let ip_mask := mask in
  let ip_network := and32 ip_address ip_mask in
  let ip_hostMin := add32 ip_network 1 in
  let ip_broadcast := add32 ip_network (not32 ip_mask) in
  let ip_hostMax := sub32 ip_broadcast 1 in
  let ip_hostCount := sub32 ip_broadcast ip_hostMin in
  mkNetwork
    (Some (mkIPv4Address ip_address "Address"))
    (Some (mkIPv4Address ip_mask "Netmask"))
    (Some (mkIPv4Address ip_network "Network"))
    (Some (mkIPv4Address ip_hostMin "HostMin"))
    (Some (mkIPv4Address ip_hostMax "HostMax"))
    (Some (mkIPv4Address ip_broadcast "Broadcast"))
    (Some (mkIPv4Address ip_hostCount "Hosts/Net")).

(** The number stored behind a field of a descriptor (0 behind nil, which
    [NewNetwork] never produces). *)
Definition num (p : option IPv4Address) : Z :=
  match p with
  | Some a => Addr a
  | None => 0
  end.

(* ===================================================================== *)
(** * Package strconv *)
(* ===================================================================== *)

Module strconv.

(** [strconv.IntSize] on a 64-bit target. *)
Definition IntSize : Z := 64.
Definition maxUint64 : Z := 2 ^ 64 - 1.

Definition Itoa (z : Z) : string := NilZero.string_of_int (Z.to_int z).

Definition syntaxError (fn str : string) : error := NumError fn str ErrSyntax.
Definition rangeError (fn str : string) : error := NumError fn str ErrRange.
Definition baseError (fn str : string) (base : Z) : error :=
  NumError fn str (ErrorString ("invalid base " ++ Itoa base)%string).
Definition bitSizeError (fn str : string) (bitSize : Z) : error :=
  NumError fn str (ErrorString ("invalid bit size " ++ Itoa bitSize)%string).

(** [lower(c)] is [c | ('x' - 'X')]. *)
Definition lower (c : Z) : Z := Z.lor c 32.

(** The digit a byte stands for, before the comparison with the base. *)
Definition digit_of (c : Z) : option Z :=
  if (48 <=? c) && (c <=? 57) then Some (c - 48)
  else if (97 <=? lower c) && (lower c <=? 122) then Some (lower c - 97 + 10)
  else None.

(** The loop of [ParseUint] over the bytes of [s], [n] being the number
    read so far. *)
Fixpoint ParseUint_loop (s0 : string) (base cutoff maxVal : Z)
    (s : string) (n : Z) : Z * option error :=
  match s with
  | EmptyString => (n, None)
  | String c rest =>
      match digit_of (byte_val c) with
      | None => (0, Some (syntaxError "ParseUint" s0))
      | Some d =>
          if d >=? base then (0, Some (syntaxError "ParseUint" s0))
          else if n >=? cutoff then (maxVal, Some (rangeError "ParseUint" s0))
          else
            let n := wrap64 (n * base) in
            let n1 := wrap64 (n + d) in
            if (n1 <? n) || (n1 >? maxVal)
            then (maxVal, Some (rangeError "ParseUint" s0))
            else ParseUint_loop s0 base cutoff maxVal rest n1
      end
  end.

(** [func ParseUint(s string, base int, bitSize int) (uint64, error)] for
    an explicit base 2..36.  Base 0, which selects the base from a prefix
    of [s], is never requested by this program and is not modelled: it is
    answered like any other base outside 2..36. *)
Definition ParseUint (s : string) (base bitSize : Z) : Z * option error :=
  if String.eqb s "" then (0, Some (syntaxError "ParseUint" s))
  else if negb ((2 <=? base) && (base <=? 36))
  then (0, Some (baseError "ParseUint" s base))
  else
    let bitSize := if bitSize =? 0 then IntSize else bitSize in
    if (bitSize <? 0) || (bitSize >? 64)
    then (0, Some (bitSizeError "ParseUint" s bitSize))
    else
      let cutoff := maxUint64 / base + 1 in
      let maxVal := wrap64 (wrap64 (2 ^ bitSize) - 1) in
      ParseUint_loop s base cutoff maxVal s 0.

End strconv.

(* ===================================================================== *)
(** * Package strings *)
(* ===================================================================== *)

Module strings.

(** [strings.Split(s, sep)] for a separator of one byte: the pieces of
    [s] between the occurrences of [sep], one more than there are
    occurrences. *)
Fixpoint Split (s : string) (sep : ascii) : list string :=
  match s with
  | EmptyString => [""]
  | String c rest =>
      if Ascii.eqb c sep then "" :: Split rest sep
      else match Split rest sep with
           | piece :: pieces => String c piece :: pieces
           | [] => [String c ""]
           end
  end.

End strings.

(* ===================================================================== *)
(** * Package encoding/binary *)
(* ===================================================================== *)

Module binary.

(** [binary.BigEndian.Uint32(b)]: the bounds check [_ = b[3]] panics on
    a slice shorter than four bytes (the message of the model leaves the
    length of the slice out); longer slices are read up to [b[3]]. *)
Definition BigEndian_Uint32 (b : list Z) : exec Z :=
  match b with
  | b0 :: b1 :: b2 :: b3 :: _ =>
      Done (Z.lor (Z.lor (Z.lor b3 (Z.shiftl b2 8)) (Z.shiftl b1 16))
              (Z.shiftl b0 24))
  | _ => Panic "runtime error: index out of range [3]"
  end.

(** [binary.BigEndian.PutUint32(b, v)]: the same bounds check, then the
    four bytes of [v], most significant first, into [b[0]] to [b[3]]. *)
Definition BigEndian_PutUint32 (b : list Z) (v : Z) : exec (list Z) :=
  match b with
  | _ :: _ :: _ :: _ :: b' =>
      Done (wrap 8 (Z.shiftr v 24) :: wrap 8 (Z.shiftr v 16) ::
            wrap 8 (Z.shiftr v 8) :: wrap 8 v :: b')
  | _ => Panic "runtime error: index out of range [3]"
  end.

End binary.

(* ===================================================================== *)
(** * The address codec: dotted quads *)
(* ===================================================================== *)

Definition ErrOutOfRange : error := IPv4Error "Error: Value is out of range".
Definition ErrInvalidSyntax : error := IPv4Error "Error: Value has invalid syntax".
Definition ErrPrefixTooSmall : error :=
  IPv4Error "Subnet prefix must be larger than the prefix".
Definition ErrMaskParse : error := IPv4Error "Error when parsing mask".

(** [func convertStrconvError(err error) error] *)
Definition convertStrconvError (err : error) : error :=
  if errors_Is err ErrRange then ErrOutOfRange
  else if errors_Is err ErrSyntax then ErrInvalidSyntax
  else err.

(** The [for _, octetString := range splitAddr] loop of [IPv4ToInt] and the
    return that follows it; [bytes] is the slice appended to so far. *)
Fixpoint IPv4ToInt_range (splitAddr : list string) (bytes : list Z)
    : exec (Z * option error) :=
  match splitAddr with
  | [] =>
      v <-! binary.BigEndian_Uint32 bytes;
      Done (v, None)
  | octetString :: splitAddr' =>
      let '(val, err) := strconv.ParseUint octetString 10 0 in
      if (val <? 0) || (val >? 255) then Done (0, Some ErrOutOfRange)
      else
        match err with
        | Some e =>
            match e with
            | NumError _ _ errCast => Done (0, Some (convertStrconvError errCast))
            | _ => Panic "interface conversion: error is not *strconv.NumError"
            end
        | None => IPv4ToInt_range splitAddr' (bytes ++ [wrap 8 val])
        end
  end.

(** [func IPv4ToInt(addrString string) (uint32, error)] *)
Definition IPv4ToInt (addrString : string) : exec (Z * option error) :=
  let splitAddr := strings.Split addrString "." in
  IPv4ToInt_range splitAddr [].

(* ===================================================================== *)
(** * Package math *)
(* ===================================================================== *)

Module math.

Local Open Scope float_scope.

(** The conversion [float64(z)] of an integer: round to nearest even. *)
Definition float64_of_Z (z : Z) : float :=
  SF2Prim (binary_normalize prec emax z 0 false).

(** The integer part of a finite float, toward zero. *)
Definition truncate (f : float) : option Z :=
  match Prim2SF f with
  | S754_zero _ => Some 0%Z
  | S754_finite s m e =>
      let a := if (0 <=? e)%Z then Z.shiftl (Zpos m) e
               else Z.shiftr (Zpos m) (- e) in
      Some (if s then (- a)%Z else a)
  | S754_infinity _ | S754_nan => None
  end.

(** The conversion [int(f)] at 64 bits.  When the integer part does not
    fit, Go leaves the result to the implementation; the model takes what
    the amd64 instruction CVTTSD2SQ answers, the value -2^63. *)
Definition int_of_float64 (f : float) : Z :=
  match truncate f with
  | Some t => if ((- 2 ^ 63 <=? t) && (t <? 2 ^ 63))%Z then t else (- 2 ^ 63)%Z
  | None => (- 2 ^ 63)%Z
  end.

(** The conversion [uint32(f)]: through 64 bits, then cut to 32, as on
    amd64; exact whenever the integer part of [f] is a [uint32]. *)
Definition uint32_of_float64 (f : float) : Z := wrap32 (int_of_float64 f).

(** [math.Ldexp(frac, exp)] is [frac * 2^exp], rounded once. *)
Definition Ldexp (frac : float) (exp : Z) : float := Z.ldexp frac exp.

Definition Ln2Hi : float := 0x1.62e42feep-1.          (* 6.93147180369123816490e-01 *)
Definition Ln2Lo : float := 0x1.a39ef35793c76p-33.    (* 1.90821492927058770002e-10 *)
Definition Overflow : float := 0x1.fffffffffffffp+9.  (* 1.0239999999999999e+03 *)
Definition Underflow : float := -1074.                (* -1.0740e+03 *)

Definition P1 : float := 0x1.5555555555555p-3.    (* 1.66666666666666657415e-01 *)
Definition P2 : float := -0x1.6c16c16bebd93p-9.   (* -2.77777777770155933842e-03 *)
Definition P3 : float := 0x1.1566aaf25de2cp-14.   (* 6.61375632143793436117e-05 *)
Definition P4 : float := -0x1.bbd41c5d26bf1p-20.  (* -1.65339022054652515390e-06 *)
Definition P5 : float := 0x1.6376972bea4dp-25.    (* 4.13813679705723846039e-08 *)

(** [expmulti(hi, lo, k)] returns [e**r * 2**k] where [r = hi - lo]. *)
Definition expmulti (hi lo : float) (k : Z) : float :=
  let r := hi - lo in
  let t := r * r in
  let c := r - t * (P1 + t * (P2 + t * (P3 + t * (P4 + t * P5)))) in
  let y := 1 - ((lo - (r * c) / (2 - c)) - hi) in
  Ldexp y k.

(** [math.Exp2(x)], the portable implementation [exp2] of math/exp.go. *)
Definition Exp2 (x : float) : float :=
  if is_nan x || (is_infinity x && (0 <? x)) then x
  else if is_infinity x && (x <? 0) then 0
  else if Overflow <? x then infinity
  else if x <? Underflow then 0
  else
    let k := if 0 <? x then int_of_float64 (x + 0.5)
             else if x <? 0 then int_of_float64 (x - 0.5)
             else 0%Z in
    let t := x - float64_of_Z k in
    let hi := t * Ln2Hi in
    let lo := (- t) * Ln2Lo in
    expmulti hi lo k.

End math.

(* ===================================================================== *)
(** * Package math/bits *)
(* ===================================================================== *)

Module bits.

Fixpoint ones (p : positive) : Z :=
  match p with
  | xH => 1
  | xO q => ones q
  | xI q => 1 + ones q
  end.

(** [bits.OnesCount32(x)]: the number of one bits in [x]. *)
Definition OnesCount32 (x : Z) : Z :=
  match wrap32 x with
  | Zpos p => ones p
  | _ => 0
  end.

(** [bits.OnesCount(x)] at type [uint], 64 bits wide. *)
Definition OnesCount (x : Z) : Z :=
  match wrap64 x with
  | Zpos p => ones p
  | _ => 0
  end.

End bits.

(* ===================================================================== *)
(** * Package fmt: scanning *)
(* ===================================================================== *)

Module fmt.

Definition RuneError : Z := 65533.

(** The table [first] of unicode/utf8 for a lead byte of 0x80 and above:
    the length of the encoding and the range accepted for the second
    byte, or [None] for a byte that starts no encoding. *)
Definition first (p0 : Z) : option (Z * Z * Z) :=
  if p0 <? 194 then None
  else if p0 <? 224 then Some (2, 128, 191)
  else if p0 =? 224 then Some (3, 160, 191)
  else if p0 <? 237 then Some (3, 128, 191)
  else if p0 =? 237 then Some (3, 128, 159)
  else if p0 <? 240 then Some (3, 128, 191)
  else if p0 =? 240 then Some (4, 144, 191)
  else if p0 <? 244 then Some (4, 128, 191)
  else if p0 =? 244 then Some (4, 128, 143)
  else None.

(** A continuation byte is in [locb, hicb]. *)
Definition continuation (b : Z) : bool := (128 <=? b) && (b <=? 191).

(** The runes the scanner reads from the input, one [utf8.DecodeRune] at a
    time: a byte that starts no valid encoding is read as [RuneError] and
    the decoding resumes at the byte after it. *)
Fixpoint runes (s : string) : list Z :=
  match s with
  | EmptyString => []
  | String c0 s1 =>
      let p0 := byte_val c0 in
      if p0 <? 128 then p0 :: runes s1
      else
        match first p0, s1 with
        | Some (sz, lo, hi), String c1 s2 =>
            let b1 := byte_val c1 in
            if (b1 <? lo) || (hi <? b1) then RuneError :: runes s1
            else if sz <=? 2
            then Z.lor (Z.shiftl (Z.land p0 31) 6) (Z.land b1 63) :: runes s2
            else
              match s2 with
              | String c2 s3 =>
                  let b2 := byte_val c2 in
                  if negb (continuation b2) then RuneError :: runes s1
                  else if sz <=? 3
                  then Z.lor (Z.lor (Z.shiftl (Z.land p0 15) 12)
                                (Z.shiftl (Z.land b1 63) 6))
                         (Z.land b2 63) :: runes s3
                  else
                    match s3 with
                    | String c3 s4 =>
                        let b3 := byte_val c3 in
                        if negb (continuation b3) then RuneError :: runes s1
                        else Z.lor (Z.lor (Z.lor (Z.shiftl (Z.land p0 7) 18)
                                             (Z.shiftl (Z.land b1 63) 12))
                                      (Z.shiftl (Z.land b2 63) 6))
                               (Z.land b3 63) :: runes s4
                    | EmptyString => RuneError :: runes s1
                    end
              | EmptyString => RuneError :: runes s1
              end
        | _, _ => RuneError :: runes s1
        end
  end.

(** The table [space] of fmt/scan.go. *)
Definition space : list (Z * Z) :=
  [(0x0009, 0x000d); (0x0020, 0x0020); (0x0085, 0x0085); (0x00a0, 0x00a0);
   (0x1680, 0x1680); (0x2000, 0x200a); (0x2028, 0x2029); (0x202f, 0x202f);
   (0x205f, 0x205f); (0x3000, 0x3000)].

Fixpoint in_ranges (rx : Z) (ranges : list (Z * Z)) : bool :=
  match ranges with
  | [] => false
  | (lo, hi) :: ranges' =>
      if rx <? lo then false
      else if rx <=? hi then true
      else in_ranges rx ranges'
  end.

(** [func isSpace(r rune) bool] *)
Definition isSpace (r : Z) : bool :=
  if r >=? 2 ^ 16 then false else in_ranges r space.

(** A scanning step consumes runes and yields a value, or raises the error
    that [errorHandler] turns into the result of [Sscanf]. *)
Definition scan (A : Type) : Type := list Z -> error + A * list Z.

(** [indexRune(ok, r) >= 0] for a string [ok] of ASCII characters. *)
Fixpoint indexRune (ok : string) (r : Z) : option ascii :=
  match ok with
  | EmptyString => None
  | String c ok' => if byte_val c =? r then Some c else indexRune ok' r
  end.

(** [func (s *ss) peek(ok string) bool] *)
Definition peek (ok : string) (input : list Z) : bool :=
  match input with
  | [] => false
  | r :: _ => match indexRune ok r with Some _ => true | None => false end
  end.

(** [func (s *ss) SkipSpace()] with [nlIsSpace] false, as [Sscanf] sets
    it: a newline in the input is an error. *)
Fixpoint SkipSpace (input : list Z) : error + unit * list Z :=
  match input with
  | [] => inr (tt, [])
  | r :: rest =>
      if (r =? 13) && peek (String "010" "") rest then SkipSpace rest
      else if r =? 10 then inl (ErrorString "unexpected newline")
      else if isSpace r then SkipSpace rest
      else inr (tt, input)
  end.

(** [func (s *ss) notEOF()] *)
Definition notEOF : scan unit := fun input =>
  match input with
  | [] => inl EOF
  | _ => inr (tt, input)
  end.

(** [for s.accept(digits) { }]: the accepted runes go to the token
    buffer. *)
Fixpoint accept_all (digits : string) (input : list Z) : string * list Z :=
  match input with
  | [] => ("", [])
  | r :: rest =>
      match indexRune digits r with
      | Some c => let '(tok, rest') := accept_all digits rest in
                  (String c tok, rest')
      | None => ("", input)
      end
  end.

(** [func (s *ss) scanNumber(digits string, haveDigits bool) string] with
    [haveDigits] false. *)
Definition scanNumber (digits : string) : scan string := fun input =>
  match notEOF input with
  | inl e => inl e
  | inr _ =>
      match input with
      | r :: rest =>
          match indexRune digits r with
          | Some c => let '(tok, rest') := accept_all digits rest in
                      inr (String c tok, rest')
          | None => inl (ErrorString "expected integer")
          end
      | [] => inl (ErrorString "expected integer")
      end
  end.

Definition decimalDigits : string := "0123456789".

(** [func (s *ss) scanUint(verb rune, bitSize int) uint64] for the verb
    [%d]. *)
Definition scanUint (bitSize : Z) : scan Z := fun input =>
  match SkipSpace input with
  | inl e => inl e
  | inr (_, input) =>
      match notEOF input with
      | inl e => inl e
      | inr (_, input) =>
          match scanNumber decimalDigits input with
          | inl e => inl e
          | inr (tok, input) =>
              match strconv.ParseUint tok 10 64 with
              | (_, Some err) => inl err
              | (i, None) =>
                  let n := bitSize in
                  let x := Z.shiftr (wrap64 (Z.shiftl i (64 - n))) (64 - n) in
                  if negb (x =? i)
                  then inl (ErrorString
                              ("unsigned integer overflow on token " ++ tok)%string)
                  else inr (i, input)
              end
          end
      end
  end.

(** What a format asks for, one item at a time: a literal character to
    match, or the verb [%d] with the width in bits of the unsigned
    integer it stores into ([*uint8]: 8, [*uint32]: 32). *)
Inductive directive : Type :=
| Lit (c : ascii)
| VerbD (bitSize : Z).

(** [func (s *ss) doScanf(format string, a []any)] on a format without
    spaces, widths or [%%]: the values stored so far, in order, and the
    error; [numProcessed] is the number of values. *)
Fixpoint doScanf (format : list directive) (input : list Z)
    : list Z * option error :=
  match format with
  | [] => ([], None)
  | Lit fmtc :: format' =>
      match input with
      | [] => ([], Some ErrUnexpectedEOF)
      | inputc :: input' =>
          if byte_val fmtc =? inputc then doScanf format' input'
          else ([], Some (ErrorString "input does not match format"))
      end
  | VerbD bitSize :: format' =>
      match SkipSpace input with
      | inl e => ([], Some e)
      | inr (_, input) =>
          match scanUint bitSize input with
          | inl e => ([], Some e)
          | inr (v, input) =>
              let '(vs, err) := doScanf format' input in
              (wrap bitSize v :: vs, err)
          end
      end
  end.

(** [func Sscanf(str string, format string, a ...any) (n int, err error)] *)
Definition Sscanf (str : string) (format : list directive)
    : list Z * option error :=
  doScanf format (runes str).

(** ** Printing *)

(** The byte of a small number. *)
Definition byte_of (z : Z) : ascii := ascii_of_N (Z.to_N z).

(** [ldigits], the digits of [fmtInteger]. *)
Definition ldigits : string := "0123456789abcdefx".

(** [digits[u]]; the index is in range wherever [fmtInteger] uses it. *)
Definition digits_at (u : Z) : ascii :=
  match String.get (Z.to_nat u) ldigits with
  | Some c => c
  | None => "000"%char
  end.

(** The loop [for u >= 10] of [fmtInteger] and the digit written after it:
    the digits of [u] are written from right to left before [buf]; [room]
    is the number of bytes free in the buffer, never used up by a number
    of 64 bits in a buffer of 68 bytes. *)
Fixpoint fmtInteger_base10 (room : nat) (u : Z) (buf : string) : string :=
  match room with
  | O => buf
  | S room' =>
      if u >=? 10 then
        let next := u / 10 in
        fmtInteger_base10 room' next (String (byte_of (48 + u - next * 10)) buf)
      else String (digits_at u) buf
  end.

(** The loop [for u >= 2] of [fmtInteger] and the digit written after it. *)
Fixpoint fmtInteger_base2 (room : nat) (u : Z) (buf : string) : string :=
  match room with
  | O => buf
  | S room' =>
      if u >=? 2 then
        fmtInteger_base2 room' (Z.shiftr u 1)
          (String (byte_of (48 + Z.land u 1)) buf)
      else String (digits_at u) buf
  end.

(** [for i > 0 && prec > len(buf)-i]: zeros before the digits up to [prec]
    digits, as long as the buffer has room. *)
Fixpoint zero_fill (room : nat) (prec : Z) (digits : string) : string :=
  match room with
  | O => digits
  | S room' =>
      if prec >? Z.of_nat (String.length digits)
      then zero_fill room' prec (String "0" digits)
      else digits
  end.

Fixpoint spaces (n : nat) : string :=
  match n with
  | O => ""
  | S n' => String " " (spaces n')
  end.

(** [func (f *fmt) pad(b []byte)] without the minus flag and with the zero
    flag switched off, as [fmtInteger] calls it: spaces on the left up to
    the width. *)
Definition pad (wid : option Z) (b : string) : string :=
  match wid with
  | None => b
  | Some wid =>
      let width := wid - Z.of_nat (String.length b) in
      if (wid =? 0) || (width <=? 0) then b
      else (spaces (Z.to_nat width) ++ b)%string
  end.

(** [func (f *fmt) fmtInteger(u uint64, base int, isSigned bool, verb rune,
    digits string)] for a number that is not negative, in base 10 or 2,
    without precision and without the flags sharp, plus, minus and space;
    [zero] is the flag 0 and [wid] the width, if the verb has one. *)
Definition fmtInteger (u : Z) (base : Z) (zero : bool) (wid : option Z)
    : exec string :=
  let len_buf := match wid with
                 | Some w => Z.max 68 (3 + w)
                 | None => 68
                 end in
  let prec := match wid with
              | Some w => if zero then w else 0
              | None => 0
              end in
  let room := Z.to_nat len_buf in
  if base =? 10 then
    let digits := fmtInteger_base10 room u "" in
    Done (pad wid (zero_fill (room - String.length digits) prec digits))
  else if base =? 2 then
    let digits := fmtInteger_base2 room u "" in
    Done (pad wid (zero_fill (room - String.length digits) prec digits))
  else Panic "fmt: unknown base; can't happen".

End fmt.

(* ===================================================================== *)
(** * The address codec: masks *)
(* ===================================================================== *)

(** [func prefixToMask(prefix uint32) uint32] *)
Definition prefixToMask (prefix : Z) : Z :=
  math.uint32_of_float64
    (PrimFloat.sub (math.Exp2 32%float)
       (math.Exp2 (math.float64_of_Z (sub32 32 prefix)))).

(** The format ["/%d"] scanned into a [*uint32]. *)
Definition format_prefix : list fmt.directive :=
  [fmt.Lit "/"; fmt.VerbD 32].

(** The format ["%d.%d.%d.%d"] scanned into four [*byte]. *)
Definition format_quad : list fmt.directive :=
  [fmt.VerbD 8; fmt.Lit "."; fmt.VerbD 8; fmt.Lit "."; fmt.VerbD 8;
   fmt.Lit "."; fmt.VerbD 8].

(** The variables an [Sscanf] stores into, after it has stored [vals] in
    order. *)
Fixpoint store (vals : list Z) (i : nat) (vars : list Z) : list Z :=
  match vals with
  | [] => vars
  | v :: vals' => store vals' (S i) (<[i := v]> vars)
  end.

(** [func ParseMask(mask string) (uint32, error)] *)
Definition ParseMask (mask : string) : exec (Z * option error) :=
  if Z.of_nat (String.length mask) <=? 1 then Done (0, Some ErrMaskParse)
  else
    match mask with
    | EmptyString => Panic "runtime error: index out of range [0]"
    | String mask_0 _ =>
        if Ascii.eqb mask_0 "/" then
          let '(vals, err) := fmt.Sscanf mask format_prefix in
          let count := Z.of_nat (length vals) in
          let prefix := default 0 (store vals 0 [0] !! 0%nat) in
          if negb (count =? 1) then Done (0, Some ErrMaskParse)
          else
            match err with
            | Some e => Done (0, Some e)
            | None => Done (wrap32 (prefixToMask prefix), None)
            end
        else
          let octets := replicate 4 0 in
          let '(vals, err) := fmt.Sscanf mask format_quad in
          let count := Z.of_nat (length vals) in
          let octets := store vals 0 octets in
          if negb (count =? 4) then Done (0, Some ErrMaskParse)
          else
            match err with
            | Some e => Done (0, Some e)
            | None =>
                v <-! binary.BigEndian_Uint32 octets;
                Done (v, None)
            end
    end.

(* ===================================================================== *)
(** * The subnet partitioner *)
(* ===================================================================== *)

(** [func getSubnetCount(prefix, subnetPrefix int) (int, error)] *)
Definition getSubnetCount (prefix subnetPrefix : Z) : Z * option error :=
  if prefix >=? subnetPrefix then (0, Some ErrPrefixTooSmall)
  else
    (math.int_of_float64
       (PrimFloat.div
          (math.Exp2 (PrimFloat.sub 32%float (math.float64_of_Z prefix)))
          (math.Exp2 (PrimFloat.sub 32%float (math.float64_of_Z subnetPrefix)))),
     None).

(** [make([]Network, n)]: a negative length panics; the memory a long
    slice needs is not modelled. *)
Definition make_Networks (n : Z) : exec (list Network) :=
  if n <? 0 then Panic "runtime error: makeslice: len out of range"
  else Done (replicate (Z.to_nat n) zeroNetwork).

(** The [for i := 0; i < subnetCount; i++] loop of [CreateSubnets], from
    index [i] on, with [todo] iterations left. *)
Fixpoint CreateSubnets_for (todo : nat) (i : nat) (address subnetMask : Z)
    (subnets : list Network) : exec (list Network) :=
  match todo with
  | O => Done subnets
  | S todo' =>
      address <-!
        (if negb (i =? 0)%nat then
           match subnets !! (i - 1)%nat with
           | None => Panic "runtime error: index out of range"
           | Some prev =>
               match broadcast prev with
               | None => Panic "runtime error: invalid memory address or nil pointer dereference"
               | Some b => Done (add32 (Addr b) 1)
               end
           end
         else Done address);
      if (i <? length subnets)%nat
      then CreateSubnets_for todo' (S i) address subnetMask
             (<[i := NewNetwork address subnetMask]> subnets)
      else Panic "runtime error: index out of range"
  end.

(** [func CreateSubnets(address, mask, subnetMask uint32) ([]Network, error)];
    the nil slice is the empty list. *)
Definition CreateSubnets (address mask subnetMask : Z)
    : exec (list Network * option error) :=
  let '(subnetCount, err) :=
    getSubnetCount (bits.OnesCount32 mask) (bits.OnesCount32 subnetMask) in
  match err with
  | Some e => Done ([], Some e)
  | None =>
      subnets <-! make_Networks subnetCount;
      subnets <-! CreateSubnets_for (Z.to_nat subnetCount) 0 address subnetMask
                    subnets;
      Done (subnets, None)
  end.

(* ===================================================================== *)
(** * The address codec: formatting and classes *)
(* ===================================================================== *)

Definition tab : string := String "009" "".
Definition newline : string := String "010" "".

(** [b[k]] on a slice. *)
Definition index (b : list Z) (k : nat) : exec Z :=
  match b !! k with
  | Some x => Done x
  | None => Panic "runtime error: index out of range"
  end.

(** [s[:n]] on a string. *)
Definition slice_to (s : string) (n : nat) : exec string :=
  if (n <=? String.length s)%nat then Done (substring 0 n s)
  else Panic "runtime error: slice bounds out of range".

(** [*p] and [p.field] on a pointer. *)
Definition deref {A : Type} (p : option A) : exec A :=
  match p with
  | Some a => Done a
  | None => Panic "runtime error: invalid memory address or nil pointer dereference"
  end.

(** [func (i *IPv4Address) String() string]: [fmt.Sprintf("%d", i.Addr)]. *)
Definition IPv4Address_String (i : IPv4Address) : exec string :=
  fmt.fmtInteger (Addr i) 10 false None.

(** [func (i *IPv4Address) Dots() string]: the verb [%v] prints a byte in
    base 10. *)
Definition IPv4Address_Dots (i : IPv4Address) : exec string :=
  bytes <-! binary.BigEndian_PutUint32 (replicate 4 0) (Addr i);
  b0 <-! index bytes 0;
  b1 <-! index bytes 1;
  b2 <-! index bytes 2;
  b3 <-! index bytes 3;
  d0 <-! fmt.fmtInteger b0 10 false None;
  d1 <-! fmt.fmtInteger b1 10 false None;
  d2 <-! fmt.fmtInteger b2 10 false None;
  d3 <-! fmt.fmtInteger b3 10 false None;
  Done (d0 ++ "." ++ d1 ++ "." ++ d2 ++ "." ++ d3)%string.

(** [func (i *IPv4Address) Bits() string]: the verb [%08b] prints a byte in
    base 2 with zeros up to eight digits. *)
Definition IPv4Address_Bits (i : IPv4Address) : exec string :=
  bytes <-! binary.BigEndian_PutUint32 (replicate 4 0) (Addr i);
  b0 <-! index bytes 0;
  b1 <-! index bytes 1;
  b2 <-! index bytes 2;
  b3 <-! index bytes 3;
  g0 <-! fmt.fmtInteger b0 2 true (Some 8);
  g1 <-! fmt.fmtInteger b1 2 true (Some 8);
  g2 <-! fmt.fmtInteger b2 2 true (Some 8);
  g3 <-! fmt.fmtInteger b3 2 true (Some 8);
  Done (g0 ++ "." ++ g1 ++ "." ++ g2 ++ "." ++ g3)%string.

(** [func GetClass(address IPv4Address) string] *)
Definition GetClass (address : IPv4Address) : exec string :=
  bits <-! IPv4Address_Bits address;
  ip <-! slice_to bits 8;
  let '(res, err) := strconv.ParseUint ip 2 0 in
  match err with
  | Some _ => Done "ERROR"
  | None =>
      if (res >=? 0) && (res <=? 127) then Done "A"
      else if (res >=? 128) && (res <=? 191) then Done "B"
      else if (res >=? 192) && (res <=? 223) then Done "C"
      else if (res >=? 224) && (res <=? 239) then Done "D"
      else if (res >=? 240) && (res <=? 255) then Done "E"
      else Done "ERROR"
  end.

(** [func (i *IPv4Address) Print(writer io.Writer, extended bool)]: the
    text written to the writer. *)
Definition IPv4Address_Print (i : IPv4Address) (extended : bool) : exec string :=
  if extended then
    dots <-! IPv4Address_Dots i;
    bits <-! IPv4Address_Bits i;
    Done (Description i ++ ":" ++ tab ++ dots ++ tab ++ bits ++ newline)%string
  else
    dots <-! IPv4Address_Dots i;
    Done (Description i ++ ":" ++ tab ++ dots ++ newline)%string.

(** [p.Print(writer, extended)] through a pointer: a nil receiver panics
    at [i.Description]. *)
Definition Print_ptr (p : option IPv4Address) (extended : bool) : exec string :=
  i <-! deref p;
  IPv4Address_Print i extended.

(** [func (n *Network) Print(writer io.Writer, printDescription, extended,
    printClass bool)]: the text written to the writer. *)
Definition Network_Print (n : Network)
    (printDescription extended printClass : bool) : exec string :=
  header <-!
    (if printDescription then
       t_address <-! Print_ptr (address n) extended;
       t_mask <-! Print_ptr (mask n) extended;
       m <-! deref (mask n);
       cidr <-! fmt.fmtInteger (bits.OnesCount (Addr m)) 10 false None;
       Done (t_address ++ t_mask ++
             "CIDR Prefix:" ++ tab ++ "/" ++ cidr ++ newline)%string
     else Done "");
  t_network <-! Print_ptr (network n) extended;
  class <-!
    (if printClass then
       a <-! deref (address n);
       c <-! GetClass a;
       Done ("CLASS " ++ c ++ newline)%string
     else Done "");
  t_hostMin <-! Print_ptr (hostMin n) extended;
  t_hostMax <-! Print_ptr (hostMax n) extended;
  t_broadcast <-! Print_ptr (broadcast n) extended;
  h <-! deref (hostsPerNet n);
  count <-! fmt.fmtInteger (Addr h) 10 false None;
  Done (header ++ t_network ++ class ++ t_hostMin ++ t_hostMax ++ t_broadcast ++
        "Hosts/Net:" ++ tab ++ count ++ newline)%string.

(* ===================================================================== *)
(** * Vocabulary of the specification *)
(* ===================================================================== *)

(** The ordering invariant of a descriptor, on unsigned 32-bit values:
    network <= hostMin <= hostMax <= broadcast. *)
Definition host_range_ordered (n : Network) : Prop :=
  num (network n) <= num (hostMin n) /\
  num (hostMin n) <= num (hostMax n) /\
  num (hostMax n) <= num (broadcast n).

(** The list the specification describes: [n] descriptors built with the
    child mask, the first from [address], each later one from the broadcast
    address of the one before it plus one. *)
Fixpoint subnet_chain (n : nat) (address subnetMask : Z) : list Network :=
  match n with
  | O => []
  | S n' =>
      let subnet := NewNetwork address subnetMask in
      subnet :: subnet_chain n' (add32 (num (broadcast subnet)) 1) subnetMask
  end.

(** A decimal digit, ['0'] to ['9']. *)
Definition is_digit (c : ascii) : bool :=
  (48 <=? byte_val c) && (byte_val c <=? 57).

Fixpoint all_digits (s : string) : bool :=
  match s with
  | EmptyString => true
  | String c s' => is_digit c && all_digits s'
  end.

(** The number a string of digits denotes, read after [acc]. *)
Fixpoint digits_value (s : string) (acc : Z) : Z :=
  match s with
  | EmptyString => acc
  | String c s' => digits_value s' (acc * 10 + (byte_val c - 48))
  end.

Definition decimal_value (s : string) : Z := digits_value s 0.

(** The digits a string starts with. *)
Fixpoint digit_prefix (s : string) : string :=
  match s with
  | EmptyString => ""
  | String c s' => if is_digit c then String c (digit_prefix s') else ""
  end.

(** The decimal numeral of a natural number. *)
Definition decimal (n : Z) : string :=
  NilZero.string_of_uint (N.to_uint (Z.to_N n)).

(** A token of a dotted quad: a string without ['.']. *)
Fixpoint dot_free (s : string) : bool :=
  match s with
  | EmptyString => true
  | String c s' => negb (Ascii.eqb c ".") && dot_free s'
  end.

(** The tokens put back together with ['.'] between them. *)
Fixpoint join (toks : list string) : string :=
  match toks with
  | [] => ""
  | [tok] => tok
  | tok :: toks' => (tok ++ String "." (join toks'))%string
  end.

(** A token that denotes an octet: decimal digits, at least one, of value at
    most 255. *)
Definition valid_octet (tok : string) : Prop :=
  tok <> "" /\ all_digits tok = true /\ decimal_value tok <= 255.

(** A token that is no number at all: empty, or with a character that is
    not a digit (a sign, a letter, a blank). *)
Definition malformed (tok : string) : Prop :=
  tok = "" \/ all_digits tok = false.

(** The mask grammar of the specification, [/<decimal 0-32>]: a slash and
    a decimal numeral of value 0 to 32. *)
Definition matches_prefix_grammar (s : string) : bool :=
  match s with
  | String "/" ds =>
      negb (String.eqb ds "") && all_digits ds && (decimal_value ds <=? 32)
  | _ => false
  end.

(** The mask grammar of the specification, [<ddd>.<ddd>.<ddd>.<ddd>]: four
    fields of one to three decimal digits with dots between them. *)
Definition matches_quad_grammar (s : string) : bool :=
  match strings.Split s "." with
  | [a; b; c; d] =>
      forallb (fun t => negb (String.eqb t "") && all_digits t &&
                        (Z.of_nat (String.length t) <=? 3)) [a; b; c; d]
  | _ => false
  end.

(** The runes of a string of ASCII characters. *)
Fixpoint bytes_of (s : string) : list Z :=
  match s with
  | EmptyString => []
  | String c s' => byte_val c :: bytes_of s'
  end.

(** A blank for [Sscanf]: a space in the sense of [isSpace] other than the
    newline. *)
Definition blank (r : Z) : bool := fmt.isSpace r && negb (r =? 10).

Definition digit_rune (r : Z) : bool := (48 <=? r) && (r <=? 57).

(** What the verb [%d] accepts for an unsigned integer of [bitSize] bits:
    [input] is blanks, then decimal digits, at least one, as many as there
    are, of value [v] below [2^bitSize], then [rest]. *)
Inductive scans_number (bitSize : Z) (input : list Z) (v : Z) (rest : list Z)
    : Prop :=
| scans_number_intro (sp : list Z) (ds : string) :
    input = sp ++ bytes_of ds ++ rest ->
    forallb blank sp = true ->
    ds <> "" ->
    all_digits ds = true ->
    v = decimal_value ds ->
    v < 2 ^ bitSize ->
    match rest with r :: _ => digit_rune r = false | [] => True end ->
    scans_number bitSize input v rest.

(** An input that begins with what a format describes, and the numbers it
    holds: each literal character as it is, each [%d] as [scans_number]
    says; what follows the last item of the format is not looked at. *)
Inductive format_matches : list fmt.directive -> list Z -> list Z -> Prop :=
| matches_end input :
    format_matches [] input []
| matches_lit c format input vals :
    format_matches format input vals ->
    format_matches (fmt.Lit c :: format) (byte_val c :: input) vals
| matches_verb bitSize format input v rest vals :
    scans_number bitSize input v rest ->
    format_matches format rest vals ->
    format_matches (fmt.VerbD bitSize :: format) input (v :: vals).

(** The four octets of a dotted quad, packed most significant first. *)
Definition pack (o0 o1 o2 o3 : Z) : Z :=
  Z.lor (Z.lor (Z.lor o3 (Z.shiftl o2 8)) (Z.shiftl o1 16)) (Z.shiftl o0 24).

(** The class of an address, read off its first octet. *)
Definition address_class (octet : Z) : string :=
  if octet <=? 127 then "A"
  else if octet <=? 191 then "B"
  else if octet <=? 223 then "C"
  else if octet <=? 239 then "D"
  else "E".

(** Bit [i] of [a] as a character. *)
Definition bit_char (a i : Z) : ascii :=
  if Z.testbit a i then "1"%char else "0"%char.

(** The eight bits of [a] from bit [hi] down to bit [hi - 7]. *)
Definition bit_group (a hi : Z) : string :=
  String (bit_char a hi) (String (bit_char a (hi - 1))
  (String (bit_char a (hi - 2)) (String (bit_char a (hi - 3))
  (String (bit_char a (hi - 4)) (String (bit_char a (hi - 5))
  (String (bit_char a (hi - 6)) (String (bit_char a (hi - 7)) ""))))))).

(** The 32 bits of [a], most significant first, in four groups of eight
    with dots between them. *)
Definition bits_string (a : Z) : string :=
  (bit_group a 31 ++ "." ++ bit_group a 23 ++ "." ++ bit_group a 15 ++ "." ++
   bit_group a 7)%string.

(** The mask of a prefix length: [n] ones, then [32 - n] zeros. *)
Definition mask_of (n : Z) : Z := 2 ^ 32 - 2 ^ (32 - n).

(** The number of newline characters of a text. *)
Fixpoint count_newlines (s : string) : nat :=
  match s with
  | EmptyString => O
  | String c s' =>
      ((if Ascii.eqb c "010" then 1 else 0) + count_newlines s')%nat
  end.

(** The text of a list of lines: each line, then a newline. *)
Fixpoint unlines (lines : list string) : string :=
  match lines with
  | [] => ""
  | line :: lines' => ((line ++ newline) ++ unlines lines')%string
  end.

(** What the lines of a report start with, in order. *)
Definition report_labels (printDescription printClass : bool) : list string :=
  (if printDescription then ["Address:"; "Netmask:"; "CIDR Prefix:"] else []) ++
  ["Network:"] ++
  (if printClass then ["CLASS "] else []) ++
  ["HostMin:"; "HostMax:"; "Broadcast:"; "Hosts/Net:"].

(* ===================================================================== *)
(** * Auxiliary definitions of the proofs *)
(* ===================================================================== *)

(** [P 0 && P 1 && ... && P (n - 1)], for checks over a range of integers. *)
Fixpoint all_below (n : nat) (P : Z -> bool) : bool :=
  match n with
  | O => true
  | S n' => P (Z.of_nat n') && all_below n' P
  end.

(** The number of values a format stores. *)
Fixpoint count_verbs (format : list fmt.directive) : nat :=
  match format with
  | [] => O
  | fmt.Lit _ :: format' => count_verbs format'
  | fmt.VerbD _ :: format' => S (count_verbs format')
  end.

(** A format whose last item is a verb: both formats of [ParseMask] are. *)
Fixpoint ends_with_verb (format : list fmt.directive) : bool :=
  match format with
  | [] => false
  | d :: format' =>
      match format' with
      | [] => match d with fmt.VerbD _ => true | fmt.Lit _ => false end
      | _ :: _ => ends_with_verb format'
      end
  end.

(** The widths a format may ask for. *)
Fixpoint widths_ok (format : list fmt.directive) : bool :=
  match format with
  | [] => true
  | fmt.Lit _ :: format' => widths_ok format'
  | fmt.VerbD bitSize :: format' =>
      (0 <? bitSize) && (bitSize <=? 64) && widths_ok format'
  end.

(** The verb [%d] as [doScanf] runs it: [SkipSpace], then [scanUint]. *)
Definition scan_verb (bitSize : Z) : fmt.scan Z := fun input =>
  match fmt.SkipSpace input with
  | inl e => inl e
  | inr (_, input) => fmt.scanUint bitSize input
  end.

(** A string of ASCII characters. *)
Fixpoint ascii_only (s : string) : bool :=
  match s with
  | EmptyString => true
  | String c s' => (byte_val c <? 128) && ascii_only s'
  end.

(** What the printing of one byte in base 10 must satisfy. *)
Definition byte_decimal_check (b : Z) : bool :=
  match fmt.fmtInteger b 10 false None with
  | Done s =>
      String.eqb s (decimal b) && all_digits s && negb (String.eqb s "") &&
      (decimal_value s =? b)
  | Panic _ => false
  end.

(** What the printing of one byte with [%08b] must satisfy. *)
Definition byte_binary_check (b : Z) : bool :=
  match fmt.fmtInteger b 2 true (Some 8) with
  | Done s => String.eqb s (bit_group b 7)
  | Panic _ => false
  end.

(** What [GetClass] computes from the first group of [Bits]. *)
Definition class_check (b : Z) : bool :=
  match strconv.ParseUint (bit_group b 7) 2 0 with
  | (res, None) => res =? b
  | (_, Some _) => false
  end.

(* ===================================================================== *)
(** * The tests of the repository, run on the embedding *)
(* ===================================================================== *)

(** [TestIPConversion] *)
Example test_IPConversion_success :
  IPv4ToInt "192.168.0.1" = Done (3232235521, None).
Proof. vm_compute. reflexivity. Qed.

Example test_IPConversion_negative :
  IPv4ToInt "-4" = Done (0, Some ErrInvalidSyntax).
Proof. vm_compute. reflexivity. Qed.

Example test_IPConversion_empty :
  IPv4ToInt "" = Done (0, Some ErrInvalidSyntax).
Proof. vm_compute. reflexivity. Qed.

Example test_IPConversion_out_of_range :
  IPv4ToInt "256.168.0.1" = Done (0, Some ErrOutOfRange).
Proof. vm_compute. reflexivity. Qed.

(** [TestSubnets] *)
Example test_Subnets_prefix_too_small :
  CreateSubnets 3232235521 4294967040 4294967040
  = Done ([], Some ErrPrefixTooSmall).
Proof. vm_compute. reflexivity. Qed.

Example test_Subnets_correct :
  CreateSubnets 3232235521 4294967040 4294967168
  = Done ([ mkNetwork (Some (mkIPv4Address 3232235521 "Address"))
                      (Some (mkIPv4Address 4294967168 "Netmask"))
                      (Some (mkIPv4Address 3232235520 "Network"))
                      (Some (mkIPv4Address 3232235521 "HostMin"))
                      (Some (mkIPv4Address 3232235646 "HostMax"))
                      (Some (mkIPv4Address 3232235647 "Broadcast"))
                      (Some (mkIPv4Address 126 "Hosts/Net"));
            mkNetwork (Some (mkIPv4Address 3232235648 "Address"))
                      (Some (mkIPv4Address 4294967168 "Netmask"))
                      (Some (mkIPv4Address 3232235648 "Network"))
                      (Some (mkIPv4Address 3232235649 "HostMin"))
                      (Some (mkIPv4Address 3232235774 "HostMax"))
                      (Some (mkIPv4Address 3232235775 "Broadcast"))
                      (Some (mkIPv4Address 126 "Hosts/Net")) ],
          None).
Proof. vm_compute. reflexivity. Qed.

(** [TestIPv4Parsing] *)
Example test_IPv4Parsing_prefix :
  ParseMask "/25" = Done (4294967168, None).
Proof. vm_compute. reflexivity. Qed.

Example test_IPv4Parsing_quad :
  ParseMask "255.255.255.128" = Done (4294967168, None).
Proof. vm_compute. reflexivity. Qed.

(* ===================================================================== *)
(** * Properties of the fixed-width arithmetic *)
(* ===================================================================== *)

Lemma two_32 : 2 ^ 32 = 4294967296.
Proof. reflexivity. Qed.

Lemma wrap32_range z : is_uint32 (wrap32 z).
Proof. unfold is_uint32, is_uint, wrap32, wrap. apply Z.mod_pos_bound. lia. Qed.

Lemma wrap32_small z : is_uint32 z -> wrap32 z = z.
Proof. unfold is_uint32, is_uint, wrap32, wrap. intros H. apply Z.mod_small, H. Qed.

Lemma wrap32_land_ones z : wrap32 z = Z.land z (Z.ones 32).
Proof. unfold wrap32, wrap. rewrite Z.land_ones by lia. reflexivity. Qed.

(** On a [uint32], [^m] is [2^32 - 1 - m]. *)
Lemma not32_complement m : is_uint32 m -> not32 m = 2 ^ 32 - 1 - m.
Proof.
  unfold is_uint32, is_uint, not32, wrap32, wrap. intros H.
  pose proof (Z.opp_lnot m) as E.
  replace (Z.lnot m) with ((2 ^ 32 - 1 - m) + (- 1) * 2 ^ 32) by lia.
  rewrite Z.mod_add by lia. apply Z.mod_small. lia.
Qed.

Lemma and32_range a m : is_uint32 a -> is_uint32 (and32 a m).
Proof.
  intros Ha. unfold and32.
  rewrite <- (wrap32_small a Ha), wrap32_land_ones.
  rewrite <- Z.land_assoc, (Z.land_comm (Z.ones 32) m), Z.land_assoc.
  rewrite <- wrap32_land_ones. apply wrap32_range.
Qed.

(** A network address and the complement of its mask share no bit. *)
Lemma and32_not32_disjoint a m : Z.land (and32 a m) (not32 m) = 0.
Proof.
  unfold and32, not32. rewrite wrap32_land_ones.
  apply Z.bits_inj'. intros i Hi.
  rewrite !Z.land_spec, Z.lnot_spec, Z.bits_0 by assumption.
  destruct (Z.testbit m i), (Z.testbit a i); reflexivity.
Qed.

(** Hence adding the complement of the mask neither carries nor wraps. *)
Lemma broadcast_no_wrap a m :
  is_uint32 a ->
  add32 (and32 a m) (not32 m) = and32 a m + not32 m /\
  and32 a m + not32 m = Z.lor (and32 a m) (not32 m).
Proof.
  intros Ha.
  pose proof (and32_not32_disjoint a m) as D.
  pose proof (and32_range a m Ha) as [N0 N1].
  pose proof (wrap32_range (Z.lnot m)) as [M0 M1]. fold (not32 m) in M0, M1.
  pose proof (Z.add_nocarry_lt_pow2 _ _ 32 D N1 M1) as L.
  split.
  - apply wrap32_small. split; lia.
  - rewrite (Z.add_nocarry_lxor _ _ D). apply Z.lxor_lor, D.
Qed.

Lemma lor_lt_pow2 a b n :
  0 <= a < 2 ^ n -> 0 <= b < 2 ^ n -> 0 <= Z.lor a b < 2 ^ n.
Proof.
  intros Ha Hb.
  assert (N0 : 0 <= Z.lor a b) by (apply Z.lor_nonneg; lia).
  split; [exact N0|].
  destruct (Z.eq_dec (Z.lor a b) 0) as [->|Hne]; [lia|].
  apply Z.log2_lt_pow2; [lia|].
  rewrite Z.log2_lor by lia.
  assert (La : a = 0 \/ Z.log2 a < n).
  { destruct (Z.eq_dec a 0); [by left|right]. apply Z.log2_lt_pow2; lia. }
  assert (Lb : b = 0 \/ Z.log2 b < n).
  { destruct (Z.eq_dec b 0); [by left|right]. apply Z.log2_lt_pow2; lia. }
  pose proof (Z.log2_nonneg a). pose proof (Z.log2_nonneg b).
  destruct La as [->|La], Lb as [->|Lb];
    [exfalso; apply Hne; reflexivity|change (Z.log2 0) with 0 in *; lia..].
Qed.

(** Four octets pack into a [uint32]. *)
Lemma pack_range o0 o1 o2 o3 :
  0 <= o0 <= 255 -> 0 <= o1 <= 255 -> 0 <= o2 <= 255 -> 0 <= o3 <= 255 ->
  is_uint32 (pack o0 o1 o2 o3).
Proof.
  intros H0 H1 H2 H3. unfold is_uint32, is_uint, pack.
  rewrite !Z.shiftl_mul_pow2 by lia.
  change (2 ^ 8) with 256. change (2 ^ 16) with 65536.
  change (2 ^ 24) with 16777216.
  repeat apply lor_lt_pow2; rewrite two_32; lia.
Qed.

(* ===================================================================== *)
(** * Properties of the network descriptor *)
(* ===================================================================== *)

(** C1. For every pair of 32-bit values (address, mask), NewNetwork returns
    a descriptor whose fields are, modulo 2^32: network = address AND mask,
    hostMin = network + 1, broadcast = network OR (NOT mask), which is also
    network + (NOT mask), hostMax = broadcast - 1 and hostsPerNet =
    broadcast - hostMin, where NOT mask is 2^32 - 1 - mask.  The formulas
    hold for every mask alike, /32 included. *)
Theorem NewNetwork_fields (a m : Z) :
  is_uint32 a -> is_uint32 m ->
  let n := NewNetwork a m in
  let net := Z.land a m in
  let bc := Z.lor net (2 ^ 32 - 1 - m) in
  address n = Some (mkIPv4Address a "Address") /\
  mask n = Some (mkIPv4Address m "Netmask") /\
  network n = Some (mkIPv4Address net "Network") /\
  hostMin n = Some (mkIPv4Address ((net + 1) mod 2 ^ 32) "HostMin") /\
  broadcast n = Some (mkIPv4Address bc "Broadcast") /\
  bc = (net + (2 ^ 32 - 1 - m)) mod 2 ^ 32 /\
  hostMax n = Some (mkIPv4Address ((bc - 1) mod 2 ^ 32) "HostMax") /\
  hostsPerNet n =
    Some (mkIPv4Address ((bc - (net + 1) mod 2 ^ 32) mod 2 ^ 32) "Hosts/Net").
Proof.
  intros Ha Hm n net bc.
  destruct (broadcast_no_wrap a m Ha) as [W L].
  rewrite (not32_complement m Hm) in W, L.
  assert (B : add32 (and32 a m) (not32 m) = bc).
  { rewrite (not32_complement m Hm), W, L. reflexivity. }
  subst n. unfold NewNetwork. cbn [address mask network hostMin broadcast hostMax hostsPerNet].
  rewrite B.
  repeat split.
  subst bc net. unfold add32, wrap32, wrap, and32 in W, L.
  rewrite <- L. symmetry. exact W.
Qed.

(** The theorem at 192.168.0.1 with the mask /32. *)
Lemma NewNetwork_fields_witness :
  let n := NewNetwork 3232235521 4294967295 in
  address n = Some (mkIPv4Address 3232235521 "Address") /\
  mask n = Some (mkIPv4Address 4294967295 "Netmask") /\
  network n = Some (mkIPv4Address 3232235521 "Network") /\
  hostMin n = Some (mkIPv4Address 3232235522 "HostMin") /\
  broadcast n = Some (mkIPv4Address 3232235521 "Broadcast") /\
  3232235521 = 3232235521 /\
  hostMax n = Some (mkIPv4Address 3232235520 "HostMax") /\
  hostsPerNet n = Some (mkIPv4Address 4294967295 "Hosts/Net").
Proof.
  apply (NewNetwork_fields 3232235521 4294967295);
    unfold is_uint32, is_uint; lia.
Defined.

(** C7, as stated, fails: at 192.168.0.1 with the mask /32 the first host
    3232235522 lies above the last host 3232235520. *)
Lemma NewNetwork_order_counterexample :
  is_uint32 3232235521 /\ is_uint32 4294967295 /\
  ~ host_range_ordered (NewNetwork 3232235521 4294967295).
Proof.
  unfold is_uint32, is_uint. repeat split; try lia.
  unfold host_range_ordered. vm_compute. intros (_ & H & _). apply H. reflexivity.
Qed.

(** C7, amended. For every pair of 32-bit values (address, mask), the
    descriptor satisfies network AND mask == network; it satisfies
    network <= hostMin <= hostMax <= broadcast exactly when the mask leaves
    at least two addresses above the network address, that is when
    mask <= 2^32 - 3 (a prefix length of at most 30 for a contiguous
    mask). *)
Theorem NewNetwork_order_iff (a m : Z) :
  is_uint32 a -> is_uint32 m ->
  let n := NewNetwork a m in
  Z.land (num (network n)) m = num (network n) /\
  (host_range_ordered n <-> m <= 2 ^ 32 - 3).
Proof.
  intros Ha Hm n. subst n. split.
  - cbn. unfold and32. rewrite <- Z.land_assoc, Z.land_diag. reflexivity.
  - destruct (broadcast_no_wrap a m Ha) as [W _].
    pose proof (wrap32_range (and32 a m + not32 m)) as R.
    fold (add32 (and32 a m) (not32 m)) in R. rewrite W in R.
    pose proof (and32_range a m Ha) as N.
    unfold host_range_ordered, NewNetwork. cbn [num network hostMin hostMax broadcast Addr].
    rewrite W. rewrite (not32_complement m Hm) in *.
    unfold add32, sub32, wrap32, wrap, is_uint32, is_uint in *.
    rewrite two_32 in *.
    generalize dependent (and32 a m). intros n0 R N.
    split.
    + intros (H1 & H2 & H3). Z.div_mod_to_equations. lia.
    + intros H. Z.div_mod_to_equations. lia.
Qed.

(** The amended theorem at 192.168.0.1 with the mask /24. *)
Lemma NewNetwork_order_iff_witness :
  let n := NewNetwork 3232235521 4294967040 in
  Z.land (num (network n)) 4294967040 = num (network n) /\
  (host_range_ordered n <-> 4294967040 <= 2 ^ 32 - 3).
Proof.
  apply (NewNetwork_order_iff 3232235521 4294967040);
    unfold is_uint32, is_uint; lia.
Defined.

(* ===================================================================== *)
(** * Properties of the subnet partitioner *)
(* ===================================================================== *)

Lemma all_below_spec n P z :
  all_below n P = true -> 0 <= z < Z.of_nat n -> P z = true.
Proof.
  induction n as [|n IH]; intros H Hz; [lia|].
  cbn [all_below] in H. apply andb_true_iff in H as [H1 H2].
  destruct (Z.eq_dec z (Z.of_nat n)) as [->|Hne]; [exact H1|].
  apply IH; [exact H2|lia].
Qed.

Lemma ones_bound p (n : nat) : Zpos p < 2 ^ Z.of_nat n -> 0 < bits.ones p <= Z.of_nat n.
Proof.
  revert n. induction p as [q IH|q IH|]; intros n H; cbn [bits.ones].
  - destruct n as [|n]; [cbn in H; lia|].
    rewrite Nat2Z.inj_succ, Z.pow_succ_r in H by lia.
    specialize (IH n). lia.
  - destruct n as [|n]; [cbn in H; lia|].
    rewrite Nat2Z.inj_succ, Z.pow_succ_r in H by lia.
    specialize (IH n). lia.
  - destruct n as [|n]; [cbn in H; lia|]. lia.
Qed.

(** A population count of 32 bits is a prefix length. *)
Lemma OnesCount32_range x : 0 <= bits.OnesCount32 x <= 32.
Proof.
  unfold bits.OnesCount32.
  pose proof (wrap32_range x) as [_ H].
  destruct (wrap32 x) as [|p|p]; try lia.
  pose proof (ones_bound p 32 H). lia.
Qed.

Lemma getSubnetCount_too_small p c :
  c <= p -> getSubnetCount p c = (0, Some ErrPrefixTooSmall).
Proof.
  intros H. unfold getSubnetCount.
  destruct (p >=? c) eqn:E; [reflexivity|lia].
Qed.

(** On prefix lengths the quotient of the two floating-point powers is the
    exact power of two: checked on each of the 33 x 33 pairs. *)
Lemma getSubnetCount_exact p c :
  0 <= p <= 32 -> 0 <= c <= 32 -> p < c ->
  getSubnetCount p c = (2 ^ (c - p), None).
Proof.
  intros Hp Hc Hlt.
  assert (K : all_below 33 (fun p => all_below 33 (fun c =>
                (c <=? p) || (fst (getSubnetCount p c) =? 2 ^ (c - p)))) = true)
    by (vm_compute; reflexivity).
  pose proof (all_below_spec _ _ p K ltac:(lia)) as Kp. cbv beta in Kp.
  pose proof (all_below_spec _ _ c Kp ltac:(lia)) as Kc. cbv beta in Kc.
  apply orb_true_iff in Kc as [Kc|Kc]; [lia|].
  apply Z.eqb_eq in Kc. rewrite <- Kc.
  unfold getSubnetCount. destruct (p >=? c) eqn:E; [lia|reflexivity].
Qed.

Lemma subnet_chain_length n a sm : length (subnet_chain n a sm) = n.
Proof. revert a. induction n as [|n IH]; intros a; cbn; [reflexivity|]. by rewrite IH. Qed.

(** The address the loop gives to the next subnet, after it has filled
    [done]. *)
Lemma CreateSubnets_for_chain sm todo :
  forall (filled rest : list Network) (a : Z),
    length rest = todo ->
    (filled = [] \/ exists filled' x, filled = filled' ++ [NewNetwork x sm]) ->
    CreateSubnets_for todo (length filled) a sm (filled ++ rest) =
    Done (filled ++
          subnet_chain todo
            (match last filled with
             | Some prev => add32 (num (broadcast prev)) 1
             | None => a
             end) sm).
Proof.
  induction todo as [|todo IH]; intros filled rest a Hlen Hfilled.
  - destruct rest; [|discriminate]. reflexivity.
  - destruct rest as [|r rest]; [discriminate|]. injection Hlen as Hlen.
    cbn [CreateSubnets_for subnet_chain].
    destruct Hfilled as [->|(filled' & x & ->)].
    + cbn [length last app exec_bind Nat.eqb negb].
      cbn [Nat.ltb Nat.leb]. cbn [list_insert insert].
      specialize (IH [NewNetwork a sm] rest a Hlen
                    (or_intror (ex_intro _ [] (ex_intro _ a eq_refl)))).
      cbn [length app last] in IH. rewrite IH. reflexivity.
    + rewrite last_snoc.
      set (prev := NewNetwork x sm).
      assert (L : length (filled' ++ [prev]) = S (length filled'))
        by (rewrite length_app; cbn; lia).
      rewrite L. cbn [Nat.eqb negb].
      replace (S (length filled') - 1)%nat with (length filled') by lia.
      replace ((filled' ++ [prev]) ++ r :: rest)
        with (filled' ++ prev :: r :: rest) by (by rewrite <- app_assoc).
      rewrite list_lookup_middle by reflexivity.
      assert (Bp : broadcast prev =
                   Some (mkIPv4Address (num (broadcast prev)) "Broadcast"))
        by reflexivity.
      rewrite Bp. cbn [exec_bind Addr].
      set (a' := add32 (num (broadcast prev)) 1).
      assert (B : (S (length filled') <? length (filled' ++ prev :: r :: rest))%nat = true).
      { apply Nat.ltb_lt. rewrite length_app. cbn. lia. }
      rewrite B.
      replace (<[S (length filled') := NewNetwork a' sm]>
                 (filled' ++ prev :: r :: rest))
        with ((filled' ++ [prev; NewNetwork a' sm]) ++ rest).
      2:{ replace (filled' ++ prev :: r :: rest)
            with ((filled' ++ [prev]) ++ r :: rest) by (by rewrite <- app_assoc).
          rewrite <- L. rewrite insert_app_r_alt by lia.
          rewrite Nat.sub_diag. cbn [list_insert insert].
          rewrite <- !app_assoc. reflexivity. }
      specialize (IH (filled' ++ [prev; NewNetwork a' sm]) rest a' Hlen).
      rewrite length_app in IH. cbn [length] in IH.
      replace (length filled' + 2)%nat with (S (S (length filled'))) in IH by lia.
      rewrite IH.
      2:{ right. exists (filled' ++ [prev]), a'. by rewrite <- app_assoc. }
      replace (filled' ++ [prev; NewNetwork a' sm])
        with ((filled' ++ [prev]) ++ [NewNetwork a' sm]) by (by rewrite <- app_assoc).
      rewrite last_snoc. rewrite <- !app_assoc. reflexivity.
Qed.

(** The loop of [CreateSubnets] fills the slice with the chain the
    specification describes, and does not panic. *)
Lemma CreateSubnets_for_all n a sm :
  CreateSubnets_for n 0 a sm (replicate n zeroNetwork) = Done (subnet_chain n a sm).
Proof.
  pose proof (CreateSubnets_for_chain sm n [] (replicate n zeroNetwork) a) as H.
  cbn [length app last] in H. apply H; [apply length_replicate|by left].
Qed.

(** [CreateSubnets] in closed form. *)
Lemma CreateSubnets_unfold a m sm :
  CreateSubnets a m sm =
  if bits.OnesCount32 sm <=? bits.OnesCount32 m
  then Done ([], Some ErrPrefixTooSmall)
  else Done (subnet_chain
               (Z.to_nat (2 ^ (bits.OnesCount32 sm - bits.OnesCount32 m))) a sm,
             None).
Proof.
  unfold CreateSubnets.
  pose proof (OnesCount32_range m) as Hm. pose proof (OnesCount32_range sm) as Hs.
  destruct (bits.OnesCount32 sm <=? bits.OnesCount32 m) eqn:E.
  - apply Z.leb_le in E. rewrite (getSubnetCount_too_small _ _ E). reflexivity.
  - apply Z.leb_gt in E. rewrite (getSubnetCount_exact _ _ Hm Hs E).
    unfold make_Networks.
    assert (P : 0 < 2 ^ (bits.OnesCount32 sm - bits.OnesCount32 m))
      by (apply Z.pow_pos_nonneg; lia).
    destruct (2 ^ (bits.OnesCount32 sm - bits.OnesCount32 m) <? 0) eqn:F; [lia|].
    cbn [exec_bind]. rewrite CreateSubnets_for_all. reflexivity.
Qed.

Lemma subnet_chain_step n a sm i (prev cur : Network) :
  subnet_chain n a sm !! i = Some prev ->
  subnet_chain n a sm !! S i = Some cur ->
  cur = NewNetwork (add32 (num (broadcast prev)) 1) sm.
Proof.
  revert a i. induction n as [|n IH]; intros a i Hp Hc; [discriminate|].
  cbn [subnet_chain] in Hp, Hc. destruct i as [|i].
  - cbn in Hp. injection Hp as <-.
    destruct n as [|n]; [discriminate|]. cbn in Hc. injection Hc as <-. reflexivity.
  - eapply IH; [exact Hp|exact Hc].
Qed.

Lemma pow2_to_nat_succ k :
  0 <= k -> exists n, Z.to_nat (2 ^ k) = S n.
Proof.
  intros Hk. assert (0 < 2 ^ k) by (apply Z.pow_pos_nonneg; lia).
  exists (Z.to_nat (2 ^ k - 1)). lia.
Qed.

(** What a successful call returns. *)
Lemma CreateSubnets_success a m sm subnets :
  CreateSubnets a m sm = Done (subnets, None) ->
  bits.OnesCount32 m < bits.OnesCount32 sm /\
  subnets = subnet_chain
              (Z.to_nat (2 ^ (bits.OnesCount32 sm - bits.OnesCount32 m))) a sm.
Proof.
  rewrite CreateSubnets_unfold.
  destruct (bits.OnesCount32 sm <=? bits.OnesCount32 m) eqn:E; [discriminate|].
  apply Z.leb_gt in E. intros H. injection H as <-. split; [exact E|reflexivity].
Qed.

(** C3. For every successful CreateSubnets(baseAddress, parentMask,
    childMask) call, subnet 0 is NewNetwork(baseAddress, childMask), each
    later subnet is NewNetwork(previous.broadcast + 1, childMask), and so
    every adjacent pair satisfies subnet[i].broadcast + 1 ==
    subnet[i+1].address, the sum being taken on 32 bits. *)
Theorem CreateSubnets_contiguous (a m sm : Z) (subnets : list Network) :
  CreateSubnets a m sm = Done (subnets, None) ->
  subnets !! 0%nat = Some (NewNetwork a sm) /\
  forall (i : nat) (prev cur : Network),
    subnets !! i = Some prev -> subnets !! S i = Some cur ->
    cur = NewNetwork ((num (broadcast prev) + 1) mod 2 ^ 32) sm /\
    num (address cur) = (num (broadcast prev) + 1) mod 2 ^ 32.
Proof.
  intros H. apply CreateSubnets_success in H as [Hlt ->].
  destruct (pow2_to_nat_succ (bits.OnesCount32 sm - bits.OnesCount32 m))
    as [n ->]; [lia|].
  split; [reflexivity|].
  intros i prev cur Hp Hc.
  rewrite (subnet_chain_step _ _ _ _ _ _ Hp Hc). split; reflexivity.
Qed.

(** The theorem at the test of the repository: 192.168.0.1, /24 into /25. *)
Lemma CreateSubnets_contiguous_witness :
  subnet_chain 2 3232235521 4294967168 !! 0%nat
    = Some (NewNetwork 3232235521 4294967168) /\
  forall (i : nat) (prev cur : Network),
    subnet_chain 2 3232235521 4294967168 !! i = Some prev ->
    subnet_chain 2 3232235521 4294967168 !! S i = Some cur ->
    cur = NewNetwork ((num (broadcast prev) + 1) mod 2 ^ 32) 4294967168 /\
    num (address cur) = (num (broadcast prev) + 1) mod 2 ^ 32.
Proof.
  apply (CreateSubnets_contiguous 3232235521 4294967040 4294967168).
  vm_compute. reflexivity.
Defined.

(** C4. getSubnetCount(parent, child) fails with PrefixTooSmall exactly
    when child <= parent, whatever the two integers, and on prefix lengths
    (0 to 32) it otherwise returns 2^(child - parent); CreateSubnets returns
    the error of getSubnetCount unchanged, with a nil slice, and on success
    returns a list of exactly as many descriptors as getSubnetCount
    counted. *)
Theorem getSubnetCount_CreateSubnets_count (p c a m sm : Z) :
  0 <= p <= 32 -> 0 <= c <= 32 ->
  getSubnetCount p c =
    (if c <=? p then (0, Some ErrPrefixTooSmall) else (2 ^ (c - p), None)) /\
  (forall p' c' : Z,
     snd (getSubnetCount p' c') =
     if c' <=? p' then Some ErrPrefixTooSmall else None) /\
  (forall k e,
     getSubnetCount (bits.OnesCount32 m) (bits.OnesCount32 sm) = (k, Some e) ->
     CreateSubnets a m sm = Done ([], Some e)) /\
  (forall k,
     getSubnetCount (bits.OnesCount32 m) (bits.OnesCount32 sm) = (k, None) ->
     exists subnets,
       CreateSubnets a m sm = Done (subnets, None) /\
       Z.of_nat (length subnets) = k).
Proof.
  intros Hp Hc.
  pose proof (OnesCount32_range m) as Hm. pose proof (OnesCount32_range sm) as Hs.
  split; [|split; [|split]].
  - destruct (c <=? p) eqn:E.
    + apply getSubnetCount_too_small. lia.
    + apply getSubnetCount_exact; lia.
  - intros p' c'. unfold getSubnetCount.
    destruct (p' >=? c') eqn:E, (c' <=? p') eqn:F; try reflexivity; lia.
  - intros k e G. rewrite CreateSubnets_unfold.
    destruct (bits.OnesCount32 sm <=? bits.OnesCount32 m) eqn:E.
    + rewrite getSubnetCount_too_small in G by lia. by injection G as <- <-.
    + rewrite getSubnetCount_exact in G by lia. discriminate.
  - intros k G. rewrite CreateSubnets_unfold.
    destruct (bits.OnesCount32 sm <=? bits.OnesCount32 m) eqn:E.
    + rewrite getSubnetCount_too_small in G by lia. discriminate.
    + rewrite getSubnetCount_exact in G by lia. injection G as <-.
      eexists. split; [reflexivity|].
      rewrite subnet_chain_length, Z2Nat.id; [reflexivity|].
      apply Z.pow_nonneg. lia.
Qed.

(** The theorem at the prefix lengths 24 and 26 and at the test of the
    repository. *)
Lemma getSubnetCount_CreateSubnets_count_witness :
  getSubnetCount 24 26 =
    (if 26 <=? 24 then (0, Some ErrPrefixTooSmall) else (2 ^ (26 - 24), None)) /\
  (forall p' c' : Z,
     snd (getSubnetCount p' c') =
     if c' <=? p' then Some ErrPrefixTooSmall else None) /\
  (forall k e,
     getSubnetCount (bits.OnesCount32 4294967040) (bits.OnesCount32 4294967168)
       = (k, Some e) ->
     CreateSubnets 3232235521 4294967040 4294967168 = Done ([], Some e)) /\
  (forall k,
     getSubnetCount (bits.OnesCount32 4294967040) (bits.OnesCount32 4294967168)
       = (k, None) ->
     exists subnets,
       CreateSubnets 3232235521 4294967040 4294967168 = Done (subnets, None) /\
       Z.of_nat (length subnets) = k).
Proof.
  apply (getSubnetCount_CreateSubnets_count 24 26); lia.
Defined.

(** C2: the code at a failing input.  From 192.168.0.200 with the parent
    mask /24 and the child mask /25, CreateSubnets returns two descriptors.
    The first keeps the address 192.168.0.200 it was given and is the block
    192.168.0.128 to 192.168.0.255, the second half of the parent network
    192.168.0.0 to 192.168.0.255; the second is the block 192.168.1.0 to
    192.168.1.127, beyond the broadcast address of the parent.  The list
    neither starts at the parent network address nor covers the range of
    the parent: 192.168.0.0 to 192.168.0.127 is left out. *)
Theorem CreateSubnets_leaves_parent :
  let parent := NewNetwork 3232235720 4294967040 in
  exists first second,
    CreateSubnets 3232235720 4294967040 4294967168 =
      Done ([first; second], None) /\
    num (network parent) = 3232235520 /\
    num (broadcast parent) = 3232235775 /\
    num (address first) = 3232235720 /\
    num (network first) = 3232235648 /\
    num (broadcast first) = 3232235775 /\
    num (network second) = 3232235776 /\
    num (broadcast second) = 3232235903 /\
    num (network parent) < num (network first) /\
    num (broadcast parent) < num (network second).
Proof.
  eexists. eexists. split; [vm_compute; reflexivity|].
  repeat split.
Qed.

(* ===================================================================== *)
(** * Properties of strconv.ParseUint *)
(* ===================================================================== *)

Lemma byte_val_range c : 0 <= byte_val c < 256.
Proof.
  unfold byte_val. pose proof (N_ascii_bounded c) as H. lia.
Qed.

Lemma is_digit_digit_of c :
  is_digit c = true ->
  strconv.digit_of (byte_val c) = Some (byte_val c - 48) /\ 0 <= byte_val c - 48 < 10.
Proof.
  unfold is_digit, strconv.digit_of. intros H. rewrite H.
  apply andb_true_iff in H as [H1 H2]. split; [reflexivity|lia].
Qed.

Lemma not_digit_digit_of c :
  is_digit c = false ->
  strconv.digit_of (byte_val c) = None \/
  exists d, strconv.digit_of (byte_val c) = Some d /\ 10 <= d.
Proof.
  unfold is_digit, strconv.digit_of. intros H. rewrite H.
  destruct ((97 <=? strconv.lower (byte_val c)) && (strconv.lower (byte_val c) <=? 122)) eqn:E.
  - right. eexists. split; [reflexivity|].
    apply andb_true_iff in E as [E1 E2]. lia.
  - left. reflexivity.
Qed.

Lemma digits_value_mono s acc :
  all_digits s = true -> 0 <= acc -> acc <= digits_value s acc.
Proof.
  revert acc. induction s as [|c s IH]; intros acc H Hacc; cbn [digits_value]; [lia|].
  cbn [all_digits] in H. apply andb_true_iff in H as [Hc Hs].
  destruct (is_digit_digit_of c Hc) as [_ Hd].
  specialize (IH (acc * 10 + (byte_val c - 48)) Hs). lia.
Qed.

Lemma digit_prefix_all_digits s : all_digits (digit_prefix s) = true.
Proof.
  induction s as [|c s IH]; [reflexivity|]. cbn [digit_prefix].
  destruct (is_digit c) eqn:E; [|reflexivity]. cbn [all_digits]. by rewrite E, IH.
Qed.

Lemma digit_prefix_id s : all_digits s = true -> digit_prefix s = s.
Proof.
  induction s as [|c s IH]; [reflexivity|]. cbn [all_digits digit_prefix].
  intros H. apply andb_true_iff in H as [Hc Hs]. by rewrite Hc, IH.
Qed.

(** The loop of [ParseUint] in base 10 at 64 bits: a range error as soon as
    the digits read exceed 64 bits, whatever follows them; otherwise a
    syntax error at the first character that is not a digit; otherwise the
    value. *)
Lemma ParseUint_loop_decimal s0 s n :
  0 <= n < 2 ^ 64 ->
  strconv.ParseUint_loop s0 10 (strconv.maxUint64 / 10 + 1) strconv.maxUint64 s n =
  if 2 ^ 64 <=? digits_value (digit_prefix s) n
  then (strconv.maxUint64, Some (strconv.rangeError "ParseUint" s0))
  else if all_digits s then (digits_value s n, None)
  else (0, Some (strconv.syntaxError "ParseUint" s0)).
Proof.
  change (strconv.maxUint64 / 10 + 1) with 1844674407370955162.
  change strconv.maxUint64 with 18446744073709551615.
  change (2 ^ 64) with 18446744073709551616.
  revert n. induction s as [|c s IH]; intros n Hn.
  - cbn [strconv.ParseUint_loop digit_prefix digits_value all_digits].
    destruct (18446744073709551616 <=? n) eqn:E; [lia|reflexivity].
  - cbn [strconv.ParseUint_loop digit_prefix all_digits].
    destruct (is_digit c) eqn:Hc.
    + destruct (is_digit_digit_of c Hc) as [-> Hd].
      set (d := byte_val c - 48) in *.
      cbn [digits_value]. fold d.
      pose proof (digits_value_mono (digit_prefix s) (n * 10 + d)
                    (digit_prefix_all_digits s) ltac:(lia)) as M.
      destruct (d >=? 10) eqn:E1; [lia|].
      destruct (n >=? 1844674407370955162) eqn:E2.
      { destruct (18446744073709551616 <=? digits_value (digit_prefix s) (n * 10 + d)) eqn:E3;
          [reflexivity|lia]. }
      unfold wrap64, wrap. change (2 ^ 64) with 18446744073709551616.
      rewrite (Z.mod_small (n * 10)) by lia.
      destruct (18446744073709551616 <=? n * 10 + d) eqn:E4.
      * assert (W : (n * 10 + d) mod 18446744073709551616
                    = n * 10 + d - 18446744073709551616).
        { symmetry. apply (Z.mod_unique _ _ 1); lia. }
        rewrite W.
        destruct (n * 10 + d - 18446744073709551616 <? n * 10) eqn:E5; [|lia].
        cbn [orb].
        destruct (18446744073709551616 <=? digits_value (digit_prefix s) (n * 10 + d)) eqn:E3;
          [reflexivity|lia].
      * rewrite (Z.mod_small (n * 10 + d)) by lia.
        destruct (n * 10 + d <? n * 10) eqn:E5; [lia|].
        destruct (n * 10 + d >? 18446744073709551615) eqn:E6; [lia|].
        cbn [orb]. rewrite IH by lia. cbn [andb]. reflexivity.
    + cbn [digits_value andb].
      destruct (18446744073709551616 <=? n) eqn:E; [lia|].
      destruct (not_digit_digit_of c Hc) as [->|(d & -> & Hd)]; [reflexivity|].
      destruct (d >=? 10) eqn:E1; [reflexivity|lia].
Qed.

(** [ParseUint(tok, 10, 0)] and [ParseUint(tok, 10, 64)] on a 64-bit
    target. *)
Lemma ParseUint_decimal tok bitSize :
  bitSize = 0 \/ bitSize = 64 ->
  strconv.ParseUint tok 10 bitSize =
  if 2 ^ 64 <=? decimal_value (digit_prefix tok)
  then (strconv.maxUint64, Some (strconv.rangeError "ParseUint" tok))
  else if all_digits tok && negb (String.eqb tok "")
  then (decimal_value tok, None)
  else (0, Some (strconv.syntaxError "ParseUint" tok)).
Proof.
  intros Hb. unfold strconv.ParseUint.
  destruct (String.eqb tok "") eqn:E.
  - apply String.eqb_eq in E. subst tok. reflexivity.
  - assert (R : strconv.ParseUint_loop tok 10 (strconv.maxUint64 / 10 + 1)
                  strconv.maxUint64 tok 0 =
                if 2 ^ 64 <=? decimal_value (digit_prefix tok)
                then (strconv.maxUint64, Some (strconv.rangeError "ParseUint" tok))
                else if all_digits tok && negb false
                then (decimal_value tok, None)
                else (0, Some (strconv.syntaxError "ParseUint" tok))).
    { rewrite ParseUint_loop_decimal by lia. unfold decimal_value.
      rewrite andb_true_r. reflexivity. }
    destruct Hb as [-> | ->]; exact R.
Qed.

(* ===================================================================== *)
(** * Properties of the dotted-quad parser *)
(* ===================================================================== *)

Lemma digit_not_dot c : is_digit c = true -> Ascii.eqb c "." = false.
Proof.
  intros H. destruct (Ascii.eqb_spec c ".") as [->|]; [|reflexivity].
  vm_compute in H. discriminate.
Qed.

Lemma all_digits_dot_free s : all_digits s = true -> dot_free s = true.
Proof.
  induction s as [|c s IH]; [reflexivity|]. cbn [all_digits dot_free].
  intros H. apply andb_true_iff in H as [Hc Hs].
  by rewrite (digit_not_dot c Hc), IH.
Qed.

Lemma Split_dot_free tok : dot_free tok = true -> strings.Split tok "." = [tok].
Proof.
  induction tok as [|c tok IH]; [reflexivity|]. cbn [dot_free strings.Split].
  intros H. apply andb_true_iff in H as [Hc Hs].
  apply negb_true_iff in Hc. rewrite Hc, (IH Hs). reflexivity.
Qed.

Lemma Split_token tok s :
  dot_free tok = true ->
  strings.Split (tok ++ String "." s) "." = tok :: strings.Split s ".".
Proof.
  induction tok as [|c tok IH]; [reflexivity|]. cbn [dot_free].
  intros H. apply andb_true_iff in H as [Hc Hs].
  apply negb_true_iff in Hc.
  change (String c tok ++ String "." s)%string with (String c (tok ++ String "." s)).
  cbn [strings.Split]. rewrite Hc, (IH Hs). reflexivity.
Qed.

(** Splitting on ['.'] gives back the tokens that were joined. *)
Lemma Split_join toks :
  toks <> [] -> Forall (fun tok => dot_free tok = true) toks ->
  strings.Split (join toks) "." = toks.
Proof.
  induction toks as [|tok toks IH]; [congruence|]. intros _ H.
  apply Forall_cons in H as [Ht Hs].
  destruct toks as [|tok' toks].
  - apply Split_dot_free, Ht.
  - change (join (tok :: tok' :: toks))
      with (tok ++ String "." (join (tok' :: toks)))%string.
    rewrite (Split_token _ _ Ht), IH; [reflexivity|congruence|exact Hs].
Qed.

Lemma valid_octet_dot_free tok : valid_octet tok -> dot_free tok = true.
Proof. intros (_ & H & _). apply all_digits_dot_free, H. Qed.

Lemma decimal_value_nonneg s : all_digits s = true -> 0 <= decimal_value s.
Proof. intros H. apply (digits_value_mono s 0 H). lia. Qed.

Lemma string_eqb_nonempty tok : tok <> "" -> String.eqb tok "" = false.
Proof. intros H. apply String.eqb_neq, H. Qed.

(** A token that denotes an octet is appended and the loop goes on. *)
Lemma IPv4ToInt_range_octet tok rest bytes :
  valid_octet tok ->
  IPv4ToInt_range (tok :: rest) bytes =
  IPv4ToInt_range rest (bytes ++ [decimal_value tok]).
Proof.
  intros (Hne & Hd & Hv). cbn [IPv4ToInt_range].
  rewrite ParseUint_decimal by (by left).
  rewrite (digit_prefix_id tok Hd), Hd, (string_eqb_nonempty tok Hne).
  pose proof (decimal_value_nonneg tok Hd) as H0.
  destruct (2 ^ 64 <=? decimal_value tok) eqn:E; [lia|]. cbn [andb negb].
  destruct (decimal_value tok <? 0) eqn:E1; [lia|].
  destruct (decimal_value tok >? 255) eqn:E2; [lia|]. cbn [orb].
  unfold wrap. rewrite Z.mod_small by lia. reflexivity.
Qed.

(** A number above 255 ends the loop with ErrOutOfRange, whether or not it
    fits 64 bits. *)
Lemma IPv4ToInt_range_too_large tok rest bytes :
  all_digits tok = true -> 255 < decimal_value tok ->
  IPv4ToInt_range (tok :: rest) bytes = Done (0, Some ErrOutOfRange).
Proof.
  intros Hd Hv. cbn [IPv4ToInt_range].
  rewrite ParseUint_decimal by (by left).
  rewrite (digit_prefix_id tok Hd), Hd.
  destruct (2 ^ 64 <=? decimal_value tok) eqn:E; [reflexivity|].
  destruct (String.eqb tok "") eqn:E0.
  { apply String.eqb_eq in E0. subst tok. cbn in Hv. lia. }
  cbn [andb negb].
  destruct (decimal_value tok >? 255) eqn:E2; [|lia].
  by rewrite orb_true_r.
Qed.

(** A token that is no number ends the loop: with ErrInvalidSyntax, unless
    the digits it starts with already exceed 64 bits. *)
Lemma IPv4ToInt_range_malformed tok rest bytes :
  malformed tok ->
  IPv4ToInt_range (tok :: rest) bytes =
  if 2 ^ 64 <=? decimal_value (digit_prefix tok)
  then Done (0, Some ErrOutOfRange)
  else Done (0, Some ErrInvalidSyntax).
Proof.
  intros Hm. cbn [IPv4ToInt_range].
  rewrite ParseUint_decimal by (by left).
  destruct (2 ^ 64 <=? decimal_value (digit_prefix tok)) eqn:E; [reflexivity|].
  assert (F : all_digits tok && negb (String.eqb tok "") = false).
  { destruct Hm as [->| ->]; [reflexivity|reflexivity]. }
  rewrite F. reflexivity.
Qed.

Lemma IPv4ToInt_range_octets pre rest bytes :
  Forall valid_octet pre ->
  IPv4ToInt_range (pre ++ rest) bytes =
  IPv4ToInt_range rest (bytes ++ map decimal_value pre).
Proof.
  intros H. revert bytes. induction H as [|tok pre Ht _ IH]; intros bytes.
  - cbn [app map]. by rewrite app_nil_r.
  - cbn [app map]. rewrite (IPv4ToInt_range_octet _ _ _ Ht), IH.
    by rewrite <- app_assoc.
Qed.

(** On tokens that all denote octets, [IPv4ToInt] hands them all to
    [binary.BigEndian.Uint32], however many they are. *)
Lemma IPv4ToInt_octets toks :
  toks <> [] -> Forall valid_octet toks ->
  IPv4ToInt (join toks) =
  (v <-! binary.BigEndian_Uint32 (map decimal_value toks); Done (v, None)).
Proof.
  intros Hne H. unfold IPv4ToInt.
  rewrite Split_join;
    [|exact Hne|eapply Forall_impl; [exact H|apply valid_octet_dot_free]].
  rewrite <- (app_nil_r toks) at 1.
  rewrite (IPv4ToInt_range_octets toks [] [] H). reflexivity.
Qed.

(** Fewer than four octets: the run panics. *)
Lemma IPv4ToInt_short_panics toks :
  toks <> [] -> Forall valid_octet toks -> (length toks < 4)%nat ->
  IPv4ToInt (join toks) = Panic "runtime error: index out of range [3]".
Proof.
  intros Hne H Hlen. rewrite (IPv4ToInt_octets toks Hne H).
  destruct toks as [|t0 [|t1 [|t2 [|t3 toks]]]]; try reflexivity.
  cbn in Hlen. lia.
Qed.

(** More than four octets: the fifth and later ones are dropped silently. *)
Lemma IPv4ToInt_long_truncates t0 t1 t2 t3 toks :
  Forall valid_octet (t0 :: t1 :: t2 :: t3 :: toks) ->
  IPv4ToInt (join (t0 :: t1 :: t2 :: t3 :: toks)) =
  IPv4ToInt (join [t0; t1; t2; t3]).
Proof.
  intros H.
  rewrite (IPv4ToInt_octets (t0 :: t1 :: t2 :: t3 :: toks)); [|discriminate|exact H].
  assert (H4 : Forall valid_octet [t0; t1; t2; t3]).
  { apply Forall_cons in H as [H0 H]. apply Forall_cons in H as [H1 H].
    apply Forall_cons in H as [H2 H]. apply Forall_cons in H as [H3 H].
    repeat (apply Forall_cons_2; [assumption|]). apply Forall_nil_2. }
  rewrite (IPv4ToInt_octets [t0; t1; t2; t3]); [|discriminate|exact H4]. reflexivity.
Qed.

(** A token denotes an octet, or a number above 255, or no number. *)
Lemma token_cases tok :
  valid_octet tok \/
  (all_digits tok = true /\ 255 < decimal_value tok) \/
  malformed tok.
Proof.
  destruct tok as [|c tok]; [right; right; by left|].
  destruct (all_digits (String c tok)) eqn:D; [|right; right; by right].
  destruct (Z_le_gt_dec (decimal_value (String c tok)) 255).
  - left. split; [discriminate|]. split; [exact D|assumption].
  - right. left. split; [reflexivity|lia].
Qed.

Lemma not_valid_too_large tok :
  all_digits tok = true -> 255 < decimal_value tok -> ~ valid_octet tok.
Proof. intros _ H (_ & _ & V). lia. Qed.

Lemma not_valid_malformed tok : malformed tok -> ~ valid_octet tok.
Proof. intros [->|H] (Hne & Hd & _); congruence. Qed.

(** The loop and the return of [IPv4ToInt] on any tokens: either they all
    denote octets and go to [binary.BigEndian.Uint32], or the first that
    does not ends the loop with one of the two errors. *)
Lemma IPv4ToInt_range_outcomes toks :
  forall bytes,
    (Forall valid_octet toks /\
     IPv4ToInt_range toks bytes =
     (v <-! binary.BigEndian_Uint32 (bytes ++ map decimal_value toks);
      Done (v, None))) \/
    (~ Forall valid_octet toks /\
     (IPv4ToInt_range toks bytes = Done (0, Some ErrOutOfRange) \/
      IPv4ToInt_range toks bytes = Done (0, Some ErrInvalidSyntax))).
Proof.
  induction toks as [|tok toks IH]; intros bytes.
  - left. split; [constructor|]. cbn [map]. by rewrite app_nil_r.
  - destruct (token_cases tok) as [V|[[D L]|M]].
    + rewrite (IPv4ToInt_range_octet _ _ _ V).
      destruct (IH (bytes ++ [decimal_value tok])) as [[F ->]|[F E]].
      * left. split; [by constructor|]. cbn [map]. by rewrite <- app_assoc.
      * right. split; [|exact E]. intros F'. apply Forall_cons in F' as [_ F'].
        contradiction.
    + right. split.
      * intros F. apply Forall_cons in F as [V _].
        exact (not_valid_too_large tok D L V).
      * left. by apply IPv4ToInt_range_too_large.
    + right. split.
      * intros F. apply Forall_cons in F as [V _].
        exact (not_valid_malformed tok M V).
      * rewrite (IPv4ToInt_range_malformed _ _ _ M).
        destruct (2 ^ 64 <=? decimal_value (digit_prefix tok)); [by left|by right].
Qed.

Lemma valid_octet_range tok : valid_octet tok -> 0 <= decimal_value tok <= 255.
Proof. intros (_ & D & V). pose proof (decimal_value_nonneg tok D). lia. Qed.

(** X1. Every outcome of [IPv4ToInt]: it panics exactly on the inputs whose
    tokens all denote octets but are fewer than four; on four tokens or
    more that all denote octets it returns a 32-bit value with a nil error;
    on any other input it returns 0 and one of its two errors, OutOfRange
    or InvalidSyntax, so that no error of strconv ever leaves it. *)
Lemma IPv4ToInt_outcomes s :
  let toks := strings.Split s "." in
  (Forall valid_octet toks /\ (length toks < 4)%nat /\
   IPv4ToInt s = Panic "runtime error: index out of range [3]") \/
  (Forall valid_octet toks /\ (4 <= length toks)%nat /\
   exists v, IPv4ToInt s = Done (v, None) /\ is_uint32 v) \/
  (~ Forall valid_octet toks /\
   (IPv4ToInt s = Done (0, Some ErrOutOfRange) \/
    IPv4ToInt s = Done (0, Some ErrInvalidSyntax))).
Proof.
  intros toks. unfold IPv4ToInt. fold toks.
  destruct (IPv4ToInt_range_outcomes toks []) as [[F ->]|[F E]];
    [|right; right; by split].
  cbn [app].
  destruct toks as [|t0 [|t1 [|t2 [|t3 toks']]]];
    try (left; split; [exact F|]; split; [cbn; lia|reflexivity]).
  right. left. split; [exact F|]. split; [cbn; lia|].
  apply Forall_cons in F as [V0 F]. apply Forall_cons in F as [V1 F].
  apply Forall_cons in F as [V2 F]. apply Forall_cons in F as [V3 F].
  eexists. split; [reflexivity|].
  apply pack_range; by apply valid_octet_range.
Qed.

(** Closed side conditions on concrete tokens. *)
Ltac octets :=
  repeat (apply Forall_cons_2;
          [first [ reflexivity
                 | split; [discriminate|split; [reflexivity|vm_compute; discriminate]] ]|]);
  apply Forall_nil_2.

(** C8, as stated, fails: the last token of
    192.168.0.99999999999999999999x contains the character x, which is not
    a digit, and yet the parse fails with ErrOutOfRange, not with
    ErrInvalidSyntax: [ParseUint] reports the overflow of 64 bits at the
    twentieth 9 and never reaches the x. *)
Lemma IPv4ToInt_token_errors_counterexample :
  Forall valid_octet ["192"; "168"; "0"] /\
  dot_free "99999999999999999999x" = true /\
  malformed "99999999999999999999x" /\
  IPv4ToInt (join (["192"; "168"; "0"] ++ ["99999999999999999999x"]))
    = Done (0, Some ErrOutOfRange) /\
  ErrOutOfRange <> ErrInvalidSyntax.
Proof.
  split; [octets|]. split; [reflexivity|]. split; [right; reflexivity|].
  split; [vm_compute; reflexivity|discriminate].
Qed.

(** C8, amended. In IPv4ToInt, the first token that does not denote an
    octet decides the error.  A token of digits whose value lies outside
    [0,255] fails with OutOfRange.  A token that is empty or contains a
    character that is not a digit (a sign included) fails with
    InvalidSyntax, unless the digits it starts with already exceed 64 bits
    (2^64 - 1), in which case it fails with OutOfRange.  In particular "-4"
    and "" yield InvalidSyntax and "256.168.0.1" yields OutOfRange. *)
Theorem IPv4ToInt_token_errors (pre post : list string) (tok : string) :
  Forall valid_octet pre ->
  dot_free tok = true ->
  Forall (fun t => dot_free t = true) post ->
  let input := join (pre ++ tok :: post) in
  (all_digits tok = true -> 255 < decimal_value tok ->
   IPv4ToInt input = Done (0, Some ErrOutOfRange)) /\
  (malformed tok -> decimal_value (digit_prefix tok) < 2 ^ 64 ->
   IPv4ToInt input = Done (0, Some ErrInvalidSyntax)) /\
  (malformed tok -> 2 ^ 64 <= decimal_value (digit_prefix tok) ->
   IPv4ToInt input = Done (0, Some ErrOutOfRange)) /\
  IPv4ToInt "-4" = Done (0, Some ErrInvalidSyntax) /\
  IPv4ToInt "" = Done (0, Some ErrInvalidSyntax) /\
  IPv4ToInt "256.168.0.1" = Done (0, Some ErrOutOfRange).
Proof.
  intros Hpre Htok Hpost input.
  assert (S : IPv4ToInt input = IPv4ToInt_range (tok :: post) (map decimal_value pre)).
  { unfold IPv4ToInt, input. rewrite Split_join.
    - apply (IPv4ToInt_range_octets pre (tok :: post) [] Hpre).
    - destruct pre; discriminate.
    - apply Forall_app. split.
      + eapply Forall_impl; [exact Hpre|apply valid_octet_dot_free].
      + apply Forall_cons_2; assumption. }
  rewrite S. repeat split.
  - intros Hd Hv. apply IPv4ToInt_range_too_large; assumption.
  - intros Hm Hv. rewrite (IPv4ToInt_range_malformed _ _ _ Hm).
    destruct (2 ^ 64 <=? decimal_value (digit_prefix tok)) eqn:E; [lia|reflexivity].
  - intros Hm Hv. rewrite (IPv4ToInt_range_malformed _ _ _ Hm).
    destruct (2 ^ 64 <=? decimal_value (digit_prefix tok)) eqn:E; [reflexivity|lia].
Qed.

(** The amended theorem at 192.168.+4.1, whose third token has a sign. *)
Lemma IPv4ToInt_token_errors_witness :
  let input := join (["192"; "168"] ++ "+4" :: ["1"]) in
  (all_digits "+4" = true -> 255 < decimal_value "+4" ->
   IPv4ToInt input = Done (0, Some ErrOutOfRange)) /\
  (malformed "+4" -> decimal_value (digit_prefix "+4") < 2 ^ 64 ->
   IPv4ToInt input = Done (0, Some ErrInvalidSyntax)) /\
  (malformed "+4" -> 2 ^ 64 <= decimal_value (digit_prefix "+4") ->
   IPv4ToInt input = Done (0, Some ErrOutOfRange)) /\
  IPv4ToInt "-4" = Done (0, Some ErrInvalidSyntax) /\
  IPv4ToInt "" = Done (0, Some ErrInvalidSyntax) /\
  IPv4ToInt "256.168.0.1" = Done (0, Some ErrOutOfRange).
Proof.
  apply (IPv4ToInt_token_errors ["192"; "168"] ["1"] "+4");
    [octets|reflexivity|octets].
Defined.

(** C5: the code at a failing input.  The split of 1.2.3.4.5 has five
    tokens, and IPv4ToInt returns 1.2.3.4 (16909060) with a nil error: the
    fifth token is read, checked and then dropped. *)
Theorem IPv4ToInt_five_tokens_accepted :
  length (strings.Split "1.2.3.4.5" ".") = 5%nat /\
  IPv4ToInt "1.2.3.4.5" = Done (16909060, None) /\
  IPv4ToInt "1.2.3.4.5" = IPv4ToInt "1.2.3.4".
Proof. repeat split; vm_compute; reflexivity. Qed.

(** C10: the code at a failing input.  The split of 1.2.3 has three tokens,
    and IPv4ToInt panics in [binary.BigEndian.Uint32], which indexes the
    fourth byte of a slice of three. *)
Theorem IPv4ToInt_three_tokens_panic :
  length (strings.Split "1.2.3" ".") = 3%nat /\
  IPv4ToInt "1.2.3" = Panic "runtime error: index out of range [3]".
Proof. split; vm_compute; reflexivity. Qed.

(* ===================================================================== *)
(** * Properties of the mask parser *)
(* ===================================================================== *)

(** C6. For every integer N in [0,32], ParseMask applied to "/" followed by
    the decimal numeral of N returns, without error, the 32-bit value
    2^32 - 2^(32-N): its top N bits (bits 31 down to 32-N) are 1 and its
    remaining 32-N bits are 0; at N = 0 it is 0 and at N = 32 it is
    0xFFFFFFFF.  The floating-point powers of two of [prefixToMask] are
    exact on every one of the 33 prefix lengths. *)
Theorem ParseMask_prefix_exact (N : Z) :
  0 <= N <= 32 ->
  exists v,
    ParseMask (String "/" (decimal N)) = Done (v, None) /\
    v = 2 ^ 32 - 2 ^ (32 - N) /\
    is_uint32 v /\
    (forall i, 0 <= i < 32 -> Z.testbit v i = (32 - N <=? i)) /\
    (N = 0 -> v = 0) /\ (N = 32 -> v = 4294967295).
Proof.
  intros HN.
  set (check := fun N =>
    match ParseMask (String "/" (decimal N)) with
    | Done (v, None) =>
        (v =? 2 ^ 32 - 2 ^ (32 - N)) && (0 <=? v) && (v <? 2 ^ 32) &&
        all_below 32 (fun i => Bool.eqb (Z.testbit v i) (32 - N <=? i))
    | _ => false
    end).
  assert (K : all_below 33 check = true) by (vm_compute; reflexivity).
  pose proof (all_below_spec _ _ N K ltac:(lia)) as KN. unfold check in KN.
  destruct (ParseMask (String "/" (decimal N))) as [[v [e|]]|msg];
    [discriminate| |discriminate].
  apply andb_true_iff in KN as [KN K4]. apply andb_true_iff in KN as [KN K3].
  apply andb_true_iff in KN as [K1 K2].
  apply Z.eqb_eq in K1. apply Z.leb_le in K2. apply Z.ltb_lt in K3.
  exists v. split; [reflexivity|]. split; [exact K1|].
  split; [split; assumption|]. split.
  - intros i Hi. pose proof (all_below_spec _ _ i K4 ltac:(lia)) as Ki.
    cbv beta in Ki. apply Bool.eqb_prop in Ki. exact Ki.
  - split; intros ->; rewrite K1; reflexivity.
Qed.

(** The theorem at /25, the mask of the test of the repository. *)
Lemma ParseMask_prefix_exact_witness :
  exists v,
    ParseMask (String "/" (decimal 25)) = Done (v, None) /\
    v = 2 ^ 32 - 2 ^ (32 - 25) /\
    is_uint32 v /\
    (forall i, 0 <= i < 32 -> Z.testbit v i = (32 - 25 <=? i)) /\
    (25 = 0 -> v = 0) /\ (25 = 32 -> v = 4294967295).
Proof. apply (ParseMask_prefix_exact 25). lia. Defined.

(** ** Scanning one number *)

Lemma byte_val_inj c1 c2 : byte_val c1 = byte_val c2 -> c1 = c2.
Proof.
  unfold byte_val. intros H. apply N2Z.inj in H.
  rewrite <- (ascii_N_embedding c1), <- (ascii_N_embedding c2). by rewrite H.
Qed.

Lemma is_digit_rune c : is_digit c = digit_rune (byte_val c).
Proof. reflexivity. Qed.

(** [indexRune] in ["0123456789"] finds exactly the digits. *)
Lemma indexRune_digit r :
  digit_rune r = true ->
  exists c, fmt.indexRune fmt.decimalDigits r = Some c /\ byte_val c = r.
Proof.
  unfold digit_rune. intros H. apply andb_true_iff in H as [H1 H2].
  assert (D : r = 48 \/ r = 49 \/ r = 50 \/ r = 51 \/ r = 52 \/ r = 53 \/
              r = 54 \/ r = 55 \/ r = 56 \/ r = 57) by lia.
  repeat (destruct D as [->|D]; [eexists; split; reflexivity|]).
  subst r. eexists; split; reflexivity.
Qed.

Lemma indexRune_not_digit r :
  digit_rune r = false -> fmt.indexRune fmt.decimalDigits r = None.
Proof.
  unfold digit_rune. intros H. apply andb_false_iff in H.
  unfold fmt.decimalDigits. cbn [fmt.indexRune].
  repeat match goal with
         | |- context [byte_val ?c =? r] =>
             let v := eval vm_compute in (byte_val c) in
             change (byte_val c) with v;
             destruct (v =? r) eqn:?; [lia|]
         end.
  reflexivity.
Qed.

Lemma indexRune_is_digit c :
  is_digit c = true -> fmt.indexRune fmt.decimalDigits (byte_val c) = Some c.
Proof.
  intros H. rewrite is_digit_rune in H.
  destruct (indexRune_digit _ H) as (c' & -> & E).
  by rewrite (byte_val_inj _ _ E).
Qed.

Lemma indexRune_Some r c :
  fmt.indexRune fmt.decimalDigits r = Some c -> byte_val c = r /\ is_digit c = true.
Proof.
  destruct (digit_rune r) eqn:D.
  - destruct (indexRune_digit r D) as (c' & -> & E). intros [= <-].
    split; [exact E|]. by rewrite is_digit_rune, E.
  - rewrite (indexRune_not_digit r D). discriminate.
Qed.

(** The maximal run of digits, read. *)
Lemma accept_all_inv input tok rest :
  fmt.accept_all fmt.decimalDigits input = (tok, rest) ->
  input = bytes_of tok ++ rest /\ all_digits tok = true /\
  match rest with r :: _ => digit_rune r = false | [] => True end.
Proof.
  revert tok rest. induction input as [|r input IH]; intros tok rest.
  - cbn. intros [= <- <-]. done.
  - cbn [fmt.accept_all].
    destruct (fmt.indexRune fmt.decimalDigits r) as [c|] eqn:E.
    + destruct (fmt.accept_all fmt.decimalDigits input) as [tok' rest'] eqn:A.
      intros [= <- <-]. destruct (IH _ _ eq_refl) as (-> & Hd & Hr).
      destruct (indexRune_Some _ _ E) as [<- Hc].
      cbn [bytes_of all_digits app]. by rewrite Hc, Hd.
    + intros [= <- <-]. cbn. split; [reflexivity|]. split; [reflexivity|].
      destruct (digit_rune r) eqn:D; [|reflexivity].
      destruct (indexRune_digit r D) as (c & E' & _). congruence.
Qed.

Lemma accept_all_digits tok rest :
  all_digits tok = true ->
  match rest with r :: _ => digit_rune r = false | [] => True end ->
  fmt.accept_all fmt.decimalDigits (bytes_of tok ++ rest) = (tok, rest).
Proof.
  intros Hd Hr. induction tok as [|c tok IH].
  - cbn [bytes_of app]. destruct rest as [|r rest]; [reflexivity|].
    cbn [fmt.accept_all]. by rewrite (indexRune_not_digit r Hr).
  - cbn [all_digits] in Hd. apply andb_true_iff in Hd as [Hc Hd].
    cbn [bytes_of app fmt.accept_all].
    by rewrite (indexRune_is_digit c Hc), (IH Hd).
Qed.

Lemma isSpace_digit r : digit_rune r = true -> fmt.isSpace r = false.
Proof.
  unfold digit_rune. intros H. apply andb_true_iff in H as [H1 H2].
  unfold fmt.isSpace. change (2 ^ 16) with 65536.
  destruct (r >=? 65536) eqn:E; [reflexivity|].
  unfold fmt.space. cbn [fmt.in_ranges].
  repeat match goal with
         | |- context [if ?b then _ else _] => destruct b eqn:?; try lia; try reflexivity
         end.
Qed.

Lemma SkipSpace_inv input u rest :
  fmt.SkipSpace input = inr (u, rest) ->
  exists sp, input = sp ++ rest /\ forallb blank sp = true.
Proof.
  revert rest. induction input as [|r input IH]; intros rest.
  - cbn. intros [= _ <-]. by exists [].
  - cbn [fmt.SkipSpace].
    destruct ((r =? 13) && fmt.peek (String "010" "") input) eqn:C.
    + intros H. destruct (IH _ H) as (sp & -> & Hsp).
      apply andb_true_iff in C as [C _]. apply Z.eqb_eq in C. subst r.
      exists (13 :: sp). split; [reflexivity|]. cbn [forallb]. by rewrite Hsp.
    + destruct (r =? 10) eqn:N; [discriminate|].
      destruct (fmt.isSpace r) eqn:S.
      * intros H. destruct (IH _ H) as (sp & -> & Hsp).
        exists (r :: sp). split; [reflexivity|].
        cbn [forallb]. unfold blank at 1. by rewrite S, N, Hsp.
      * intros [= _ <-]. by exists [].
Qed.

Lemma SkipSpace_blanks sp rest :
  forallb blank sp = true ->
  match rest with r :: _ => digit_rune r = true | [] => True end ->
  fmt.SkipSpace (sp ++ rest) = inr (tt, rest).
Proof.
  intros Hsp Hr. induction sp as [|r sp IH].
  - cbn [app]. destruct rest as [|d rest]; [reflexivity|].
    cbn [fmt.SkipSpace].
    pose proof (isSpace_digit d Hr) as S.
    unfold digit_rune in Hr. apply andb_true_iff in Hr as [H1 H2].
    destruct (d =? 13) eqn:E1; [lia|]. cbn [andb].
    destruct (d =? 10) eqn:E2; [lia|]. by rewrite S.
  - cbn [forallb] in Hsp. apply andb_true_iff in Hsp as [Hb Hsp].
    unfold blank in Hb. apply andb_true_iff in Hb as [S N].
    apply negb_true_iff in N.
    cbn [app fmt.SkipSpace]. rewrite N, S, (IH Hsp).
    by destruct ((r =? 13) && fmt.peek (String "010" "") (sp ++ rest)).
Qed.

Lemma bytes_of_nonempty ds : ds <> "" -> exists d rest, bytes_of ds = d :: rest.
Proof. destruct ds as [|c ds]; [congruence|]. intros _. by eexists _, _. Qed.

Lemma bytes_of_head_digit ds rest :
  ds <> "" -> all_digits ds = true ->
  match bytes_of ds ++ rest with r :: _ => digit_rune r = true | [] => True end.
Proof.
  destruct ds as [|c ds]; [congruence|]. intros _ H. cbn [all_digits] in H.
  apply andb_true_iff in H as [Hc _]. exact Hc.
Qed.

Lemma scanNumber_inv input tok rest :
  fmt.scanNumber fmt.decimalDigits input = inr (tok, rest) ->
  input = bytes_of tok ++ rest /\ tok <> "" /\ all_digits tok = true /\
  match rest with r :: _ => digit_rune r = false | [] => True end.
Proof.
  unfold fmt.scanNumber, fmt.notEOF. destruct input as [|r input]; [discriminate|].
  destruct (fmt.indexRune fmt.decimalDigits r) as [c|] eqn:E; [|discriminate].
  destruct (fmt.accept_all fmt.decimalDigits input) as [tok' rest'] eqn:A.
  intros [= <- <-]. destruct (accept_all_inv _ _ _ A) as (-> & Hd & Hr).
  destruct (indexRune_Some _ _ E) as [<- Hc].
  cbn [bytes_of app all_digits]. rewrite Hc, Hd. done.
Qed.

Lemma scanNumber_digits tok rest :
  tok <> "" -> all_digits tok = true ->
  match rest with r :: _ => digit_rune r = false | [] => True end ->
  fmt.scanNumber fmt.decimalDigits (bytes_of tok ++ rest) = inr (tok, rest).
Proof.
  destruct tok as [|c tok]; [congruence|]. intros _ Hd Hr.
  cbn [all_digits] in Hd. apply andb_true_iff in Hd as [Hc Hd].
  unfold fmt.scanNumber, fmt.notEOF. cbn [bytes_of app].
  by rewrite (indexRune_is_digit c Hc), (accept_all_digits tok rest Hd Hr).
Qed.

(** The overflow test of [scanUint]: shifting the top bits out and back
    leaves the number as it is exactly when it fits [n] bits. *)
Lemma scanUint_overflow_test n i :
  0 < n <= 64 -> 0 <= i < 2 ^ 64 ->
  (Z.shiftr (wrap64 (Z.shiftl i (64 - n))) (64 - n) =? i) = (i <? 2 ^ n).
Proof.
  intros Hn Hi. unfold wrap64, wrap.
  rewrite Z.shiftl_mul_pow2, Z.shiftr_div_pow2 by lia.
  replace (2 ^ 64) with (2 ^ n * 2 ^ (64 - n))
    by (rewrite <- Z.pow_add_r by lia; f_equal; lia).
  assert (P : 0 < 2 ^ (64 - n)) by (apply Z.pow_pos_nonneg; lia).
  assert (Q : 0 < 2 ^ n) by (apply Z.pow_pos_nonneg; lia).
  rewrite Z.mul_mod_distr_r by lia.
  rewrite Z.div_mul by lia.
  destruct (i <? 2 ^ n) eqn:E.
  - apply Z.ltb_lt in E. rewrite Z.mod_small by lia. apply Z.eqb_refl.
  - apply Z.ltb_ge in E. apply Z.eqb_neq.
    pose proof (Z.mod_pos_bound i (2 ^ n) Q). lia.
Qed.

(** The verb [%d] succeeds exactly on what [scans_number] describes, and
    yields that number and that rest. *)
Lemma scan_verb_iff bitSize input v rest :
  0 < bitSize <= 64 ->
  scan_verb bitSize input = inr (v, rest) <-> scans_number bitSize input v rest.
Proof.
  intros Hb. split.
  - unfold scan_verb, fmt.scanUint.
    destruct (fmt.SkipSpace input) as [e|[[] in0]] eqn:S0; [discriminate|].
    destruct (fmt.SkipSpace in0) as [e|[[] in1]] eqn:S1; [discriminate|].
    destruct (fmt.notEOF in1) as [e|[[] in2]] eqn:N1; [discriminate|].
    assert (in2 = in1) as -> by (destruct in1; [discriminate|by injection N1]).
    destruct (fmt.scanNumber fmt.decimalDigits in1) as [e|[tok in3]] eqn:SN;
      [discriminate|].
    destruct (scanNumber_inv _ _ _ SN) as (-> & Hne & Hd & Hr).
    rewrite ParseUint_decimal by (by right).
    rewrite (digit_prefix_id tok Hd), Hd, (string_eqb_nonempty tok Hne).
    destruct (2 ^ 64 <=? decimal_value tok) eqn:E; [discriminate|].
    cbn [andb negb].
    pose proof (decimal_value_nonneg tok Hd) as H0.
    rewrite scanUint_overflow_test by lia.
    destruct (decimal_value tok <? 2 ^ bitSize) eqn:F; [|discriminate].
    cbn [negb]. intros [= <- <-].
    destruct (SkipSpace_inv _ _ _ S0) as (sp0 & -> & Hsp0).
    destruct (SkipSpace_inv _ _ _ S1) as (sp1 & -> & Hsp1).
    apply (scans_number_intro _ _ _ _ (sp0 ++ sp1) tok).
    + by rewrite <- app_assoc.
    + by rewrite forallb_app, Hsp0, Hsp1.
    + exact Hne.
    + exact Hd.
    + reflexivity.
    + lia.
    + exact Hr.
  - intros [sp ds -> Hsp Hne Hd -> Hv Hr].
    pose proof (bytes_of_head_digit ds rest Hne Hd) as Hh.
    unfold scan_verb, fmt.scanUint.
    rewrite (SkipSpace_blanks sp _ Hsp Hh).
    pose proof (SkipSpace_blanks [] _ eq_refl Hh) as S1. cbn [app] in S1.
    rewrite S1.
    destruct (bytes_of_nonempty ds Hne) as (d & tl & Eb).
    assert (NE : fmt.notEOF (bytes_of ds ++ rest) = inr (tt, bytes_of ds ++ rest))
      by (by rewrite Eb).
    rewrite NE, (scanNumber_digits ds rest Hne Hd Hr).
    rewrite ParseUint_decimal by (by right).
    rewrite (digit_prefix_id ds Hd), Hd, (string_eqb_nonempty ds Hne).
    pose proof (decimal_value_nonneg ds Hd) as H0.
    assert (B : 2 ^ bitSize <= 2 ^ 64) by (apply Z.pow_le_mono_r; lia).
    destruct (2 ^ 64 <=? decimal_value ds) eqn:E; [lia|].
    cbn [andb negb]. rewrite scanUint_overflow_test by lia.
    destruct (decimal_value ds <? 2 ^ bitSize) eqn:F; [reflexivity|lia].
Qed.

(** ** Scanning a format *)

Lemma doScanf_VerbD bitSize format input :
  fmt.doScanf (fmt.VerbD bitSize :: format) input =
  match scan_verb bitSize input with
  | inl e => ([], Some e)
  | inr (v, input') =>
      let '(vs, err) := fmt.doScanf format input' in (wrap bitSize v :: vs, err)
  end.
Proof.
  cbn [fmt.doScanf]. unfold scan_verb.
  destruct (fmt.SkipSpace input) as [e|[[] in0]]; reflexivity.
Qed.

Lemma scans_number_value bitSize input v rest :
  scans_number bitSize input v rest -> wrap bitSize v = v.
Proof.
  intros [sp ds _ _ _ Hd -> Hv _]. unfold wrap.
  pose proof (decimal_value_nonneg ds Hd). apply Z.mod_small. lia.
Qed.

Lemma format_matches_count format input vals :
  format_matches format input vals -> length vals = count_verbs format.
Proof. induction 1; cbn; congruence. Qed.

Lemma ends_with_verb_cons d format :
  format <> [] -> ends_with_verb (d :: format) = ends_with_verb format.
Proof. destruct format; [congruence|reflexivity]. Qed.

Lemma ends_with_verb_count format :
  ends_with_verb format = true -> (0 < count_verbs format)%nat.
Proof.
  induction format as [|d format IH]; [discriminate|].
  destruct format as [|d' format].
  - destruct d; [discriminate|cbn; lia].
  - rewrite ends_with_verb_cons by discriminate. intros E. specialize (IH E).
    destruct d; cbn [count_verbs] in *; lia.
Qed.

(** [doScanf] succeeds exactly on the inputs that begin with what the format
    describes, and then stores the numbers they hold; on any other input it
    stores fewer numbers than the format has verbs. *)
Lemma doScanf_matches format :
  widths_ok format = true ->
  forall input,
    (exists vals, format_matches format input vals /\
                  fmt.doScanf format input = (vals, None)) \/
    ((forall vals, ~ format_matches format input vals) /\
     exists vals e, fmt.doScanf format input = (vals, Some e) /\
                    (ends_with_verb format = true ->
                     (length vals < count_verbs format)%nat)).
Proof.
  induction format as [|d format IH]; intros Hw input.
  - left. exists []. split; [constructor|reflexivity].
  - destruct d as [c|bitSize].
    + cbn [widths_ok] in Hw. cbn [fmt.doScanf].
      destruct input as [|r input].
      { right. split; [intros vals H; inversion H|].
        exists [], ErrUnexpectedEOF. split; [reflexivity|].
        intros E. apply ends_with_verb_count in E. cbn [length]. lia. }
      destruct (byte_val c =? r) eqn:E.
      * apply Z.eqb_eq in E. subst r.
        destruct (IH Hw input) as [(vals & M & D)|(NM & vals & e & D & L)].
        -- left. exists vals. split; [by constructor|exact D].
        -- right. split.
           ++ intros vals' H. inversion H; subst. eapply NM; eassumption.
           ++ exists vals, e. split; [exact D|].
              destruct format; [discriminate|].
              rewrite ends_with_verb_cons by discriminate. exact L.
      * apply Z.eqb_neq in E. right. split; [intros vals H; inversion H; congruence|].
        exists [], (ErrorString "input does not match format").
        split; [reflexivity|].
        intros Ev. apply ends_with_verb_count in Ev. cbn [length]. lia.
    + cbn [widths_ok] in Hw. apply andb_true_iff in Hw as [Hb Hw].
      apply andb_true_iff in Hb as [Hb1 Hb2].
      assert (Hb : 0 < bitSize <= 64) by lia.
      rewrite doScanf_VerbD.
      destruct (scan_verb bitSize input) as [e|[v rest]] eqn:V.
      * right. split.
        -- intros vals H. inversion H; subst.
           match goal with
           | Hs : scans_number _ _ _ _ |- _ =>
               apply (scan_verb_iff _ _ _ _ Hb) in Hs; congruence
           end.
        -- exists [], e. split; [reflexivity|]. intros _. cbn. lia.
      * pose proof (proj1 (scan_verb_iff _ _ _ _ Hb) V) as Sv.
        rewrite (scans_number_value _ _ _ _ Sv).
        destruct (IH Hw rest) as [(vals & M & D)|(NM & vals & e & D & L)].
        -- left. exists (v :: vals). split; [by econstructor|by rewrite D].
        -- right. split.
           ++ intros vals' H. inversion H; subst.
              match goal with
              | Hs : scans_number _ _ _ _ |- _ =>
                  apply (scan_verb_iff _ _ _ _ Hb) in Hs;
                  rewrite V in Hs; injection Hs as <- <-
              end.
              eapply NM; eassumption.
           ++ exists (v :: vals), e. split; [by rewrite D|].
              destruct format as [|d format].
              ** cbn in D. discriminate.
              ** rewrite ends_with_verb_cons by discriminate.
                 intros Ev. specialize (L Ev).
                 change (count_verbs (fmt.VerbD bitSize :: d :: format))
                   with (S (count_verbs (d :: format))).
                 cbn [length]. lia.
Qed.

(** ** The runes of the input *)

Lemma lor_bound_l k a b : 0 <= a -> 0 <= b -> k <= a -> k <= Z.lor a b.
Proof.
  intros Ha Hb H.
  assert (D : Z.land a (Z.ldiff b a) = 0).
  { apply Z.bits_inj'. intros i Hi.
    rewrite Z.land_spec, Z.ldiff_spec, Z.bits_0.
    destruct (Z.testbit a i), (Z.testbit b i); reflexivity. }
  assert (E : Z.lor a b = Z.lor a (Z.ldiff b a)).
  { apply Z.bits_inj'. intros i Hi.
    rewrite !Z.lor_spec, Z.ldiff_spec.
    destruct (Z.testbit a i), (Z.testbit b i); reflexivity. }
  rewrite E, <- (Z.lxor_lor _ _ D), <- (Z.add_nocarry_lxor _ _ D).
  assert (0 <= Z.ldiff b a) by (apply Z.ldiff_nonneg; lia). lia.
Qed.

Lemma lor_bound_r k a b : 0 <= a -> 0 <= b -> k <= b -> k <= Z.lor a b.
Proof. intros. rewrite Z.lor_comm. by apply lor_bound_l. Qed.

Lemma land_low_bits x n : 0 <= n -> Z.land x (2 ^ n - 1) = x mod 2 ^ n.
Proof.
  intros Hn. replace (2 ^ n - 1) with (Z.ones n) by (rewrite Z.ones_equiv; lia).
  apply Z.land_ones, Hn.
Qed.

Lemma runes_head_nonascii c s :
  128 <= byte_val c -> exists r rest, fmt.runes (String c s) = r :: rest /\ 128 <= r.
Proof.
  intros Hc. pose proof (byte_val_range c) as Rc.
  cbn [fmt.runes]. destruct (byte_val c <? 128) eqn:E; [lia|]. clear E.
  set (p0 := byte_val c) in *.
  assert (RE : forall l, exists r rest, fmt.RuneError :: l = r :: rest /\ 128 <= r).
  { intros l. exists fmt.RuneError, l. split; [reflexivity|]. unfold fmt.RuneError. lia. }
  destruct (fmt.first p0) as [[[sz lo] hi]|] eqn:F; [|apply RE].
  destruct s as [|c1 s2]; [apply RE|].
  pose proof (byte_val_range c1) as R1. set (b1 := byte_val c1) in *.
  destruct ((b1 <? lo) || (hi <? b1)) eqn:A; [apply RE|].
  apply orb_false_iff in A as [A1 A2].
  assert (M5 : Z.land p0 31 = p0 mod 32) by apply (land_low_bits p0 5 ltac:(lia)).
  assert (M4 : Z.land p0 15 = p0 mod 16) by apply (land_low_bits p0 4 ltac:(lia)).
  assert (M3 : Z.land p0 7 = p0 mod 8) by apply (land_low_bits p0 3 ltac:(lia)).
  assert (M6 : forall b, Z.land b 63 = b mod 64) by (intros b; apply (land_low_bits b 6 ltac:(lia))).
  unfold fmt.first in F.
  repeat match type of F with
         | (if ?b then _ else _) = _ => destruct b eqn:?; [try discriminate|]
         end; try discriminate.
  all: injection F as <- <- <-.
  all: cbn [Z.leb Z.compare Pos.compare Pos.compare_cont].
  all: repeat match goal with
         | |- context [match ?s with EmptyString => _ | String _ _ => _ end] =>
             destruct s as [|? ?]; [apply RE|]
         | |- context [negb (fmt.continuation ?b)] =>
             destruct (negb (fmt.continuation b)); [apply RE|]
         end.
  all: eexists _, _; (split; [reflexivity|]).
  all: rewrite ?M5, ?M4, ?M3, ?M6, ?Z.shiftl_mul_pow2 by lia.
  all: repeat match goal with
         | |- context [?x mod ?n] =>
             let H := fresh in
             let m := fresh "m" in
             assert (H : 0 <= x mod n < n) by (apply Z.mod_pos_bound; lia);
             try (assert (x mod n = x - n * (x / n)) by (rewrite Z.mod_eq; lia));
             set (m := x mod n) in *; clearbody m
         end.
  all: change (2 ^ 6) with 64; change (2 ^ 12) with 4096;
       change (2 ^ 18) with 262144.
  all: repeat match goal with
         | |- 128 <= Z.lor (Z.lor ?x ?y) ?z =>
             apply lor_bound_l; [repeat (apply Z.lor_nonneg; split); lia|lia|]
         end.
  all: first [ apply lor_bound_l; [lia|lia|lia]
             | apply lor_bound_r; [lia|lia|lia] ].
Qed.

Lemma runes_ascii c s :
  byte_val c < 128 -> fmt.runes (String c s) = byte_val c :: fmt.runes s.
Proof.
  intros H. cbn [fmt.runes]. destruct (byte_val c <? 128) eqn:E; [reflexivity|lia].
Qed.

(** Only the byte ['/'] is read as the rune ['/']. *)
Lemma runes_head_slash s input :
  fmt.runes s = 47 :: input -> exists s', s = String "/" s' /\ input = fmt.runes s'.
Proof.
  destruct s as [|c s]; [discriminate|].
  destruct (Z_lt_le_dec (byte_val c) 128) as [L|G].
  - rewrite (runes_ascii c s L). intros [= E <-].
    exists s. split; [|reflexivity]. f_equal. by apply byte_val_inj.
  - destruct (runes_head_nonascii c s G) as (r & rest & -> & Hr).
    intros [= -> _]. lia.
Qed.

Lemma runes_short s :
  (String.length s <= 1)%nat -> (length (fmt.runes s) <= 1)%nat.
Proof.
  destruct s as [|c [|c' s]]; cbn [String.length]; [cbn; lia| |lia].
  intros _. cbn [fmt.runes].
  destruct (byte_val c <? 128); [cbn; lia|].
  destruct (fmt.first (byte_val c)) as [[[? ?] ?]|]; cbn; lia.
Qed.

(** ** The two formats of ParseMask *)

Lemma scans_number_head bitSize input v rest :
  scans_number bitSize input v rest ->
  exists r input', input = r :: input' /\ (blank r = true \/ digit_rune r = true).
Proof.
  intros [sp ds -> Hsp Hne Hd _ _ _].
  destruct sp as [|r sp].
  - destruct ds as [|c ds]; [congruence|]. cbn [all_digits] in Hd.
    apply andb_true_iff in Hd as [Hc _].
    eexists _, _. split; [reflexivity|]. right. exact Hc.
  - cbn [forallb] in Hsp. apply andb_true_iff in Hsp as [Hr _].
    eexists _, _. split; [reflexivity|]. by left.
Qed.

Lemma format_matches_two_runes c bitSize bitSize' format input vals :
  format_matches (fmt.Lit c :: fmt.VerbD bitSize :: format) input vals \/
  format_matches (fmt.VerbD bitSize :: fmt.Lit c :: fmt.VerbD bitSize' :: format)
    input vals ->
  (2 <= length input)%nat.
Proof.
  intros [M|M]; inversion M; subst.
  - match goal with H : format_matches (fmt.VerbD _ :: _) _ _ |- _ =>
      inversion H; subst end.
    match goal with H : scans_number _ _ _ _ |- _ =>
      destruct (scans_number_head _ _ _ _ H) as (r & input' & -> & _) end.
    cbn. lia.
  - match goal with H : format_matches (fmt.Lit _ :: _) _ _ |- _ =>
      inversion H; subst end.
    match goal with H : scans_number _ _ _ _ |- _ =>
      destruct H as [sp ds -> _ Hne _ _ _ _] end.
    destruct ds as [|d ds]; [congruence|].
    rewrite !length_app. cbn. lia.
Qed.

Lemma format_matches_lit c format input vals :
  format_matches (fmt.Lit c :: format) input vals ->
  exists input', input = byte_val c :: input' /\ format_matches format input' vals.
Proof. intros M. inversion M; subst. by eexists. Qed.

Lemma format_matches_verb bitSize format input vals :
  format_matches (fmt.VerbD bitSize :: format) input vals ->
  exists v rest vals',
    vals = v :: vals' /\ scans_number bitSize input v rest /\
    format_matches format rest vals'.
Proof. intros M. inversion M; subst. by eexists _, _, _. Qed.

(** C9: the code at failing inputs.  None of /25abc, /33 and 1.2.3.4.5
    matches a grammar of the specification, and ParseMask returns a mask
    with a nil error on each: [Sscanf] does not look at what follows the
    last number it reads, and nothing compares the prefix length with 32.
    On /25abc the mask is that of /25, on 1.2.3.4.5 that of 1.2.3.4. *)
Theorem ParseMask_accepts_outside_grammar :
  (matches_prefix_grammar "/25abc" = false /\
   matches_quad_grammar "/25abc" = false /\
   ParseMask "/25abc" = Done (4294967168, None) /\
   ParseMask "/25abc" = ParseMask "/25") /\
  (matches_prefix_grammar "/33" = false /\
   matches_quad_grammar "/33" = false /\
   exists v, ParseMask "/33" = Done (v, None)) /\
  (matches_prefix_grammar "1.2.3.4.5" = false /\
   matches_quad_grammar "1.2.3.4.5" = false /\
   ParseMask "1.2.3.4.5" = Done (16909060, None) /\
   ParseMask "1.2.3.4.5" = ParseMask "1.2.3.4").
Proof.
  split; [|split].
  - repeat split; vm_compute; reflexivity.
  - split; [vm_compute; reflexivity|]. split; [vm_compute; reflexivity|].
    eexists. vm_compute. reflexivity.
  - repeat split; vm_compute; reflexivity.
Qed.

(** Every outcome of [ParseMask], which never panics.  It returns a mask
    with a nil error on the inputs that begin with one of the two forms
    [Sscanf] reads: a slash, optional blanks and a decimal number below
    2^32; or four decimal numbers of at most 255, each after optional
    blanks, with a dot after each of the first three.  On every other input
    it returns the error MaskParse. *)
Lemma ParseMask_outcomes (s : string) :
  (exists N,
     format_matches format_prefix (fmt.runes s) [N] /\
     ParseMask s = Done (wrap32 (prefixToMask N), None)) \/
  (exists o0 o1 o2 o3,
     format_matches format_quad (fmt.runes s) [o0; o1; o2; o3] /\
     ParseMask s = Done (pack o0 o1 o2 o3, None)) \/
  ((forall vals, ~ format_matches format_prefix (fmt.runes s) vals) /\
   (forall vals, ~ format_matches format_quad (fmt.runes s) vals) /\
   ParseMask s = Done (0, Some ErrMaskParse)).
Proof.
  unfold ParseMask.
  destruct (Z.of_nat (String.length s) <=? 1) eqn:Len.
  { right. right. apply Z.leb_le in Len.
    pose proof (runes_short s ltac:(lia)) as Short.
    split; [|split; [|reflexivity]]; intros vals M.
    - pose proof (format_matches_two_runes _ _ 0 _ _ _ (or_introl M)). lia.
    - pose proof (format_matches_two_runes _ _ _ _ _ _ (or_intror M)). lia. }
  destruct s as [|c s]; [discriminate|].
  destruct (Ascii.eqb_spec c "/") as [->|Hc].
  - assert (R : fmt.runes (String "/" s) = 47 :: fmt.runes s)
      by (apply runes_ascii; vm_compute; reflexivity).
    unfold fmt.Sscanf.
    destruct (doScanf_matches format_prefix eq_refl (fmt.runes (String "/" s)))
      as [(vals & M & ->)|(NM & vals & e & -> & L)].
    + left. pose proof (format_matches_count _ _ _ M) as C.
      destruct vals as [|N [|? ?]]; try discriminate.
      exists N. split; [exact M|]. reflexivity.
    + right. right. specialize (L eq_refl). cbn [count_verbs format_prefix] in L.
      destruct vals as [|? ?]; [|cbn in L; lia].
      split; [exact NM|]. split; [|reflexivity].
      intros vals M. rewrite R in M.
      apply format_matches_verb in M as (v & rest & vals' & _ & Sn & _).
      destruct (scans_number_head _ _ _ _ Sn) as (r & input' & E & B).
      injection E as E1 E2. subst r.
      destruct B as [B|B]; vm_compute in B; discriminate.
  - unfold fmt.Sscanf.
    destruct (doScanf_matches format_quad eq_refl (fmt.runes (String c s)))
      as [(vals & M & ->)|(NM & vals & e & -> & L)].
    + right. left. pose proof (format_matches_count _ _ _ M) as C.
      destruct vals as [|o0 [|o1 [|o2 [|o3 [|? ?]]]]]; try discriminate.
      exists o0, o1, o2, o3. split; [exact M|]. reflexivity.
    + right. right. specialize (L eq_refl). cbn [count_verbs format_quad] in L.
      split; [|split; [exact NM|]].
      * intros vals' M.
        apply format_matches_lit in M as (input' & E & _).
        apply runes_head_slash in E as (s' & E & _).
        injection E as E _. congruence.
      * assert (C : negb (Z.of_nat (length vals) =? 4) = true).
        { apply negb_true_iff, Z.eqb_neq. lia. }
        rewrite C. reflexivity.
Qed.


(* ===================================================================== *)
(** * The tests of the repository on the formatting functions *)
(* ===================================================================== *)

(** [TestIPv4] *)
Example test_IPv4_Bits :
  IPv4Address_Bits (mkIPv4Address 3232235521 "")
  = Done "11000000.10101000.00000000.00000001".
Proof. vm_compute. reflexivity. Qed.

Example test_IPv4_Dots :
  IPv4Address_Dots (mkIPv4Address 3232235521 "") = Done "192.168.0.1".
Proof. vm_compute. reflexivity. Qed.

Example test_IPv4_Print_short :
  IPv4Address_Print (mkIPv4Address 3232235521 "test desc") false
  = Done ("test desc:" ++ tab ++ "192.168.0.1" ++ newline)%string.
Proof. vm_compute. reflexivity. Qed.

Example test_IPv4_Print_extended :
  IPv4Address_Print (mkIPv4Address 3232235521 "test desc") true
  = Done ("test desc:" ++ tab ++ "192.168.0.1" ++ tab ++
          "11000000.10101000.00000000.00000001" ++ newline)%string.
Proof. vm_compute. reflexivity. Qed.

(* ===================================================================== *)
(** * Properties of the formatting functions *)
(* ===================================================================== *)

Lemma wrap8_range z : 0 <= wrap 8 z < 256.
Proof. unfold wrap. apply Z.mod_pos_bound. reflexivity. Qed.

(** A byte is printed as its decimal numeral. *)
Lemma fmtInteger_byte b :
  0 <= b < 256 ->
  fmt.fmtInteger b 10 false None = Done (decimal b) /\
  valid_octet (decimal b) /\ decimal_value (decimal b) = b.
Proof.
  intros Hb.
  assert (K : all_below 256 byte_decimal_check = true) by (vm_compute; reflexivity).
  pose proof (all_below_spec _ _ b K ltac:(lia)) as Kb. unfold byte_decimal_check in Kb.
  destruct (fmt.fmtInteger b 10 false None) as [s|msg]; [|discriminate].
  apply andb_true_iff in Kb as [Kb K4]. apply andb_true_iff in Kb as [Kb K3].
  apply andb_true_iff in Kb as [K1 K2].
  apply String.eqb_eq in K1. subst s. apply Z.eqb_eq in K4.
  apply negb_true_iff, String.eqb_neq in K3.
  split; [reflexivity|]. split; [|exact K4].
  split; [exact K3|]. split; [exact K2|lia].
Qed.

(** [Dots] never panics: it is the four octets in decimal with dots between
    them. *)
Lemma IPv4Address_Dots_octets a desc :
  IPv4Address_Dots (mkIPv4Address a desc) =
  Done (join [decimal (wrap 8 (Z.shiftr a 24)); decimal (wrap 8 (Z.shiftr a 16));
              decimal (wrap 8 (Z.shiftr a 8)); decimal (wrap 8 a)]).
Proof.
  unfold IPv4Address_Dots. cbn [Addr replicate binary.BigEndian_PutUint32 exec_bind].
  unfold index. cbn [lookup list_lookup exec_bind].
  destruct (fmtInteger_byte _ (wrap8_range (Z.shiftr a 24))) as [-> _].
  destruct (fmtInteger_byte _ (wrap8_range (Z.shiftr a 16))) as [-> _].
  destruct (fmtInteger_byte _ (wrap8_range (Z.shiftr a 8))) as [-> _].
  destruct (fmtInteger_byte _ (wrap8_range a)) as [-> _].
  reflexivity.
Qed.

Lemma lor_shiftl_add lo hi k :
  0 <= k -> 0 <= lo < 2 ^ k -> Z.lor lo (Z.shiftl hi k) = lo + hi * 2 ^ k.
Proof.
  intros Hk Hlo.
  assert (D : Z.land lo (Z.shiftl hi k) = 0).
  { apply Z.bits_inj'. intros i Hi. rewrite Z.land_spec, Z.bits_0.
    destruct (Z_lt_le_dec i k) as [L|G].
    - rewrite (Z.shiftl_spec_low _ _ _ L). apply andb_false_r.
    - rewrite <- (Z.mod_small lo (2 ^ k)) by lia.
      rewrite Z.mod_pow2_bits_high by lia. reflexivity. }
  rewrite <- (Z.lxor_lor _ _ D), <- (Z.add_nocarry_lxor _ _ D).
  rewrite Z.shiftl_mul_pow2 by lia. reflexivity.
Qed.

(** Packing is positional notation in base 256. *)
Lemma pack_sum o0 o1 o2 o3 :
  0 <= o1 < 256 -> 0 <= o2 < 256 -> 0 <= o3 < 256 ->
  pack o0 o1 o2 o3 = o3 + o2 * 2 ^ 8 + o1 * 2 ^ 16 + o0 * 2 ^ 24.
Proof.
  intros H1 H2 H3. unfold pack.
  rewrite (lor_shiftl_add o3 o2 8) by lia.
  rewrite (lor_shiftl_add (o3 + o2 * 2 ^ 8) o1 16) by lia.
  rewrite (lor_shiftl_add _ o0 24) by lia. reflexivity.
Qed.

(** The four bytes [PutUint32] writes pack back into the value. *)
Lemma pack_bytes a :
  is_uint32 a ->
  pack (wrap 8 (Z.shiftr a 24)) (wrap 8 (Z.shiftr a 16)) (wrap 8 (Z.shiftr a 8))
       (wrap 8 a) = a.
Proof.
  unfold is_uint32, is_uint. rewrite two_32. intros Ha.
  rewrite pack_sum by apply wrap8_range.
  unfold wrap. rewrite !Z.shiftr_div_pow2 by lia.
  change (2 ^ 8) with 256. change (2 ^ 16) with 65536.
  change (2 ^ 24) with 16777216.
  Z.div_mod_to_equations. lia.
Qed.

(** The bytes of a packed value are the octets that were packed. *)
Lemma bytes_pack o0 o1 o2 o3 :
  0 <= o0 < 256 -> 0 <= o1 < 256 -> 0 <= o2 < 256 -> 0 <= o3 < 256 ->
  let v := pack o0 o1 o2 o3 in
  wrap 8 (Z.shiftr v 24) = o0 /\ wrap 8 (Z.shiftr v 16) = o1 /\
  wrap 8 (Z.shiftr v 8) = o2 /\ wrap 8 v = o3.
Proof.
  intros H0 H1 H2 H3 v. subst v. rewrite pack_sum by assumption.
  unfold wrap. rewrite !Z.shiftr_div_pow2 by lia.
  change (2 ^ 8) with 256. change (2 ^ 16) with 65536.
  change (2 ^ 24) with 16777216.
  repeat split; Z.div_mod_to_equations; lia.
Qed.

Lemma decimal_octets_valid a :
  Forall valid_octet
    [decimal (wrap 8 (Z.shiftr a 24)); decimal (wrap 8 (Z.shiftr a 16));
     decimal (wrap 8 (Z.shiftr a 8)); decimal (wrap 8 a)].
Proof.
  repeat (apply Forall_cons_2; [apply fmtInteger_byte, wrap8_range|]).
  apply Forall_nil_2.
Qed.

(** X2. Parsing what [Dots] prints gives the address back: for every
    32-bit address, [Dots] returns a string, and [IPv4ToInt] on that string
    returns the address with a nil error. *)
Theorem Dots_IPv4ToInt_roundtrip (a : Z) (desc : string) :
  is_uint32 a ->
  exists s,
    IPv4Address_Dots (mkIPv4Address a desc) = Done s /\
    IPv4ToInt s = Done (a, None).
Proof.
  intros Ha. eexists. split; [apply IPv4Address_Dots_octets|].
  rewrite IPv4ToInt_octets; [|discriminate|apply decimal_octets_valid].
  cbn [map].
  destruct (fmtInteger_byte _ (wrap8_range (Z.shiftr a 24))) as (_ & _ & ->).
  destruct (fmtInteger_byte _ (wrap8_range (Z.shiftr a 16))) as (_ & _ & ->).
  destruct (fmtInteger_byte _ (wrap8_range (Z.shiftr a 8))) as (_ & _ & ->).
  destruct (fmtInteger_byte _ (wrap8_range a)) as (_ & _ & ->).
  cbn [binary.BigEndian_Uint32 exec_bind]. fold (pack (wrap 8 (Z.shiftr a 24))
    (wrap 8 (Z.shiftr a 16)) (wrap 8 (Z.shiftr a 8)) (wrap 8 a)).
  by rewrite (pack_bytes a Ha).
Qed.

(** The theorem at 192.168.0.1. *)
Lemma Dots_IPv4ToInt_roundtrip_witness :
  exists s,
    IPv4Address_Dots (mkIPv4Address 3232235521 "Address") = Done s /\
    IPv4ToInt s = Done (3232235521, None).
Proof.
  apply (Dots_IPv4ToInt_roundtrip 3232235521 "Address").
  unfold is_uint32, is_uint. lia.
Defined.

(** X5. Printing what [IPv4ToInt] parsed normalises the input: on four
    tokens that denote octets, [IPv4ToInt] returns their values packed most
    significant first, and [Dots] of that value is the four values in
    decimal without leading zeros. *)
Theorem IPv4ToInt_Dots_normalises (t0 t1 t2 t3 desc : string) :
  Forall valid_octet [t0; t1; t2; t3] ->
  let v := pack (decimal_value t0) (decimal_value t1) (decimal_value t2)
             (decimal_value t3) in
  IPv4ToInt (join [t0; t1; t2; t3]) = Done (v, None) /\
  IPv4Address_Dots (mkIPv4Address v desc) =
  Done (join [decimal (decimal_value t0); decimal (decimal_value t1);
              decimal (decimal_value t2); decimal (decimal_value t3)]).
Proof.
  intros F v. split.
  - rewrite IPv4ToInt_octets; [reflexivity|discriminate|exact F].
  - apply Forall_cons in F as [V0 F]. apply Forall_cons in F as [V1 F].
    apply Forall_cons in F as [V2 F]. apply Forall_cons in F as [V3 _].
    apply valid_octet_range in V0, V1, V2, V3.
    subst v. rewrite IPv4Address_Dots_octets.
    pose proof (bytes_pack (decimal_value t0) (decimal_value t1) (decimal_value t2)
                  (decimal_value t3) ltac:(lia) ltac:(lia) ltac:(lia) ltac:(lia))
      as B.
    cbv zeta in B. destruct B as (E0 & E1 & E2 & E3).
    rewrite E0, E1, E2, E3. reflexivity.
Qed.

(** The theorem at 010.001.0.1, which is printed back as 10.1.0.1. *)
Lemma IPv4ToInt_Dots_normalises_witness :
  let v := pack (decimal_value "010") (decimal_value "001") (decimal_value "0")
             (decimal_value "1") in
  IPv4ToInt (join ["010"; "001"; "0"; "1"]) = Done (v, None) /\
  IPv4Address_Dots (mkIPv4Address v "Address") =
  Done (join [decimal (decimal_value "010"); decimal (decimal_value "001");
              decimal (decimal_value "0"); decimal (decimal_value "1")]).
Proof. apply (IPv4ToInt_Dots_normalises "010" "001" "0" "1" "Address"). octets. Defined.

(** ** Dotted quads as masks *)

Lemma bytes_of_app s1 s2 : bytes_of (s1 ++ s2) = bytes_of s1 ++ bytes_of s2.
Proof. induction s1 as [|c s1 IH]; [reflexivity|]. cbn. by rewrite IH. Qed.

Lemma runes_bytes_of s : ascii_only s = true -> fmt.runes s = bytes_of s.
Proof.
  induction s as [|c s IH]; [reflexivity|]. cbn [ascii_only].
  intros H. apply andb_true_iff in H as [Hc Hs]. apply Z.ltb_lt in Hc.
  rewrite (runes_ascii c s Hc), (IH Hs). reflexivity.
Qed.

Lemma ascii_only_app s1 s2 :
  ascii_only (s1 ++ s2) = ascii_only s1 && ascii_only s2.
Proof.
  induction s1 as [|c s1 IH]; [reflexivity|]. cbn. by rewrite IH, andb_assoc.
Qed.

Lemma all_digits_ascii_only s : all_digits s = true -> ascii_only s = true.
Proof.
  induction s as [|c s IH]; [reflexivity|]. cbn [all_digits ascii_only].
  intros H. apply andb_true_iff in H as [Hc Hs]. rewrite (IH Hs), andb_true_r.
  unfold is_digit in Hc. apply andb_true_iff in Hc as [_ Hc]. lia.
Qed.

(** What a format describes is what [doScanf] stores. *)
Lemma format_matches_doScanf format input vals :
  format_matches format input vals -> widths_ok format = true ->
  fmt.doScanf format input = (vals, None).
Proof.
  induction 1 as [input|c format input vals M IH|bitSize format input v rest vals Sn M IH];
    intros Hw.
  - reflexivity.
  - cbn [fmt.doScanf]. rewrite Z.eqb_refl. apply IH, Hw.
  - cbn [widths_ok] in Hw. apply andb_true_iff in Hw as [Hb Hw].
    apply andb_true_iff in Hb as [Hb1 Hb2].
    rewrite doScanf_VerbD.
    rewrite (proj2 (scan_verb_iff bitSize input v rest ltac:(lia)) Sn).
    rewrite (IH Hw), (scans_number_value _ _ _ _ Sn). reflexivity.
Qed.

(** A token that denotes an octet is scanned by [%d] into a byte, up to
    whatever follows it that is not a digit. *)
Lemma valid_octet_scans tok rest :
  valid_octet tok ->
  match rest with r :: _ => digit_rune r = false | [] => True end ->
  scans_number 8 (bytes_of tok ++ rest) (decimal_value tok) rest.
Proof.
  intros (Hne & Hd & Hv) Hr.
  apply (scans_number_intro 8 _ _ _ [] tok); try done.
  change (2 ^ 8) with 256. lia.
Qed.

Lemma quad_format_matches t0 t1 t2 t3 :
  Forall valid_octet [t0; t1; t2; t3] ->
  format_matches format_quad (bytes_of (join [t0; t1; t2; t3]))
    [decimal_value t0; decimal_value t1; decimal_value t2; decimal_value t3].
Proof.
  intros F.
  apply Forall_cons in F as [V0 F]. apply Forall_cons in F as [V1 F].
  apply Forall_cons in F as [V2 F]. apply Forall_cons in F as [V3 _].
  cbn [join]. rewrite !bytes_of_app. cbn [bytes_of].
  rewrite !bytes_of_app. cbn [bytes_of]. rewrite !bytes_of_app. cbn [bytes_of].
  unfold format_quad.
  eapply matches_verb; [apply (valid_octet_scans t0 _ V0); reflexivity|].
  apply matches_lit.
  eapply matches_verb; [apply (valid_octet_scans t1 _ V1); reflexivity|].
  apply matches_lit.
  eapply matches_verb; [apply (valid_octet_scans t2 _ V2); reflexivity|].
  apply matches_lit.
  eapply matches_verb; [|apply matches_end].
  rewrite <- (app_nil_r (bytes_of t3)). apply (valid_octet_scans t3 [] V3). exact I.
Qed.

Lemma digit_not_slash c : is_digit c = true -> Ascii.eqb c "/" = false.
Proof.
  intros H. destruct (Ascii.eqb_spec c "/") as [->|]; [|reflexivity].
  vm_compute in H. discriminate.
Qed.

Lemma length_append s1 s2 :
  String.length (s1 ++ s2) = (String.length s1 + String.length s2)%nat.
Proof. induction s1 as [|c s1 IH]; [reflexivity|]. cbn. by rewrite IH. Qed.

(** X3. [ParseMask] and [IPv4ToInt] agree on dotted quads: on four tokens
    that denote octets, joined with dots, both return the four values
    packed most significant first, with a nil error. *)
Theorem ParseMask_IPv4ToInt_agree (t0 t1 t2 t3 : string) :
  Forall valid_octet [t0; t1; t2; t3] ->
  let v := pack (decimal_value t0) (decimal_value t1) (decimal_value t2)
             (decimal_value t3) in
  ParseMask (join [t0; t1; t2; t3]) = Done (v, None) /\
  IPv4ToInt (join [t0; t1; t2; t3]) = Done (v, None).
Proof.
  intros F v. split.
  2:{ rewrite IPv4ToInt_octets; [reflexivity|discriminate|exact F]. }
  pose proof (quad_format_matches t0 t1 t2 t3 F) as M.
  assert (A : ascii_only (join [t0; t1; t2; t3]) = true).
  { apply Forall_cons in F as [V0 F]. apply Forall_cons in F as [V1 F].
    apply Forall_cons in F as [V2 F]. apply Forall_cons in F as [V3 _].
    destruct V0 as (_ & D0 & _), V1 as (_ & D1 & _), V2 as (_ & D2 & _),
             V3 as (_ & D3 & _).
    cbn [join]. rewrite !ascii_only_app. cbn [ascii_only].
    rewrite !ascii_only_app. cbn [ascii_only]. rewrite !ascii_only_app.
    cbn [ascii_only].
    rewrite !all_digits_ascii_only by assumption. reflexivity. }
  apply Forall_cons in F as [V0 _]. destruct V0 as (Hne & Hd & _).
  destruct t0 as [|c t0]; [congruence|].
  cbn [all_digits] in Hd. apply andb_true_iff in Hd as [Hc _].
  unfold ParseMask, fmt.Sscanf.
  rewrite (runes_bytes_of _ A), (format_matches_doScanf _ _ _ M eq_refl).
  change (join [String c t0; t1; t2; t3])
    with (String c (t0 ++ String "." (join [t1; t2; t3])))%string.
  cbn [String.length]. rewrite length_append. cbn [String.length].
  destruct (Z.of_nat (S (String.length t0 + S (String.length (join [t1; t2; t3])))) <=? 1)
    eqn:L; [apply Z.leb_le in L; lia|].
  rewrite (digit_not_slash c Hc). reflexivity.
Qed.

(** The theorem at 255.255.255.128, the mask of the test of the
    repository. *)
Lemma ParseMask_IPv4ToInt_agree_witness :
  let v := pack (decimal_value "255") (decimal_value "255") (decimal_value "255")
             (decimal_value "128") in
  ParseMask (join ["255"; "255"; "255"; "128"]) = Done (v, None) /\
  IPv4ToInt (join ["255"; "255"; "255"; "128"]) = Done (v, None).
Proof. apply (ParseMask_IPv4ToInt_agree "255" "255" "255" "128"). octets. Defined.

(** X4. Parsing what [Dots] prints as a mask gives the mask back: for every
    32-bit value, [ParseMask] on the string [Dots] returns is that value,
    with a nil error. *)
Theorem Dots_ParseMask_roundtrip (m : Z) (desc : string) :
  is_uint32 m ->
  exists s,
    IPv4Address_Dots (mkIPv4Address m desc) = Done s /\
    ParseMask s = Done (m, None).
Proof.
  intros Hm. eexists. split; [apply IPv4Address_Dots_octets|].
  pose proof (quad_format_matches _ _ _ _ (decimal_octets_valid m)) as M.
  assert (A : ascii_only (join [decimal (wrap 8 (Z.shiftr m 24));
                                decimal (wrap 8 (Z.shiftr m 16));
                                decimal (wrap 8 (Z.shiftr m 8));
                                decimal (wrap 8 m)]) = true).
  { destruct (fmtInteger_byte _ (wrap8_range (Z.shiftr m 24))) as (_ & (_ & D0 & _) & _).
    destruct (fmtInteger_byte _ (wrap8_range (Z.shiftr m 16))) as (_ & (_ & D1 & _) & _).
    destruct (fmtInteger_byte _ (wrap8_range (Z.shiftr m 8))) as (_ & (_ & D2 & _) & _).
    destruct (fmtInteger_byte _ (wrap8_range m)) as (_ & (_ & D3 & _) & _).
    cbn [join]. rewrite !ascii_only_app. cbn [ascii_only].
    rewrite !ascii_only_app. cbn [ascii_only]. rewrite !ascii_only_app.
    cbn [ascii_only].
    rewrite !all_digits_ascii_only by assumption. reflexivity. }
  destruct (fmtInteger_byte _ (wrap8_range (Z.shiftr m 24))) as (_ & (Hne & Hd & _) & E0).
  destruct (fmtInteger_byte _ (wrap8_range (Z.shiftr m 16))) as (_ & _ & E1).
  destruct (fmtInteger_byte _ (wrap8_range (Z.shiftr m 8))) as (_ & _ & E2).
  destruct (fmtInteger_byte _ (wrap8_range m)) as (_ & _ & E3).
  rewrite E0, E1, E2, E3 in M.
  unfold ParseMask, fmt.Sscanf.
  rewrite (runes_bytes_of _ A), (format_matches_doScanf _ _ _ M eq_refl).
  destruct (decimal (wrap 8 (Z.shiftr m 24))) as [|c t0]; [congruence|].
  cbn [all_digits] in Hd. apply andb_true_iff in Hd as [Hc _].
  match goal with
  | |- context [join [String c t0; ?t1; ?t2; ?t3]] =>
      change (join [String c t0; t1; t2; t3])
        with (String c (t0 ++ String "." (join [t1; t2; t3])))%string
  end.
  cbn [String.length]. rewrite length_append. cbn [String.length].
  match goal with
  | |- context [Z.of_nat ?n <=? 1] =>
      destruct (Z.of_nat n <=? 1) eqn:L; [apply Z.leb_le in L; lia|]
  end.
  rewrite (digit_not_slash c Hc).
  cbn [length store lookup list_lookup default insert list_insert replicate
       Z.eqb negb binary.BigEndian_Uint32 exec_bind Z.of_nat Pos.of_succ_nat
       Pos.succ Pos.eqb].
  fold (pack (wrap 8 (Z.shiftr m 24)) (wrap 8 (Z.shiftr m 16))
          (wrap 8 (Z.shiftr m 8)) (wrap 8 m)).
  by rewrite (pack_bytes m Hm).
Qed.

(** The theorem at 255.255.255.128. *)
Lemma Dots_ParseMask_roundtrip_witness :
  exists s,
    IPv4Address_Dots (mkIPv4Address 4294967168 "Netmask") = Done s /\
    ParseMask s = Done (4294967168, None).
Proof.
  apply (Dots_ParseMask_roundtrip 4294967168 "Netmask").
  unfold is_uint32, is_uint. lia.
Defined.

(** ** The bits of an address and its class *)

(** A byte is printed by [%08b] as its eight bits. *)
Lemma fmtInteger_bits b :
  0 <= b < 256 -> fmt.fmtInteger b 2 true (Some 8) = Done (bit_group b 7).
Proof.
  intros Hb.
  assert (K : all_below 256 byte_binary_check = true) by (vm_compute; reflexivity).
  pose proof (all_below_spec _ _ b K ltac:(lia)) as Kb. unfold byte_binary_check in Kb.
  destruct (fmt.fmtInteger b 2 true (Some 8)) as [s|msg]; [|discriminate].
  apply String.eqb_eq in Kb. by subst s.
Qed.

Lemma bit_char_shift a s i :
  0 <= s -> 0 <= i < 8 -> bit_char (wrap 8 (Z.shiftr a s)) i = bit_char a (i + s).
Proof.
  intros Hs Hi. unfold bit_char, wrap.
  rewrite Z.mod_pow2_bits_low by lia. rewrite Z.shiftr_spec by lia. reflexivity.
Qed.

Lemma bit_group_shift a s :
  0 <= s -> bit_group (wrap 8 (Z.shiftr a s)) 7 = bit_group a (7 + s).
Proof.
  intros Hs. unfold bit_group. rewrite !bit_char_shift by lia.
  repeat (f_equal; try lia).
Qed.

Lemma IPv4Address_Bits_groups a desc :
  IPv4Address_Bits (mkIPv4Address a desc) = Done (bits_string a).
Proof.
  unfold IPv4Address_Bits. cbn [Addr replicate binary.BigEndian_PutUint32 exec_bind].
  unfold index. cbn [lookup list_lookup exec_bind].
  rewrite !fmtInteger_bits by apply wrap8_range.
  cbn [exec_bind].
  rewrite (bit_group_shift a 24), (bit_group_shift a 16), (bit_group_shift a 8)
    by lia.
  rewrite <- (Z.shiftr_0_r a) at 4. rewrite (bit_group_shift a 0) by lia.
  reflexivity.
Qed.

(** X6. [Bits] never panics and writes the 32 bits of the address, most
    significant first, as characters 0 and 1 in four groups of eight with
    dots between them: 35 characters. *)
Theorem IPv4Address_Bits_bits (a : Z) (desc : string) :
  IPv4Address_Bits (mkIPv4Address a desc) = Done (bits_string a) /\
  String.length (bits_string a) = 35%nat.
Proof. split; [apply IPv4Address_Bits_groups|reflexivity]. Qed.

(** The first octet decides the class. *)
Lemma GetClass_octet a desc :
  GetClass (mkIPv4Address a desc) =
  Done (address_class (wrap 8 (Z.shiftr a 24))).
Proof.
  unfold GetClass.
  unfold IPv4Address_Bits. cbn [Addr replicate binary.BigEndian_PutUint32 exec_bind].
  unfold index. cbn [lookup list_lookup exec_bind].
  rewrite !fmtInteger_bits by apply wrap8_range.
  cbn [exec_bind].
  pose proof (wrap8_range (Z.shiftr a 24)) as Hb.
  set (b := wrap 8 (Z.shiftr a 24)) in *.
  assert (S8 : slice_to (bit_group b 7 ++ "." ++
                         bit_group (wrap 8 (Z.shiftr a 16)) 7 ++ "." ++
                         bit_group (wrap 8 (Z.shiftr a 8)) 7 ++ "." ++
                         bit_group (wrap 8 a) 7)%string 8 = Done (bit_group b 7))
    by reflexivity.
  rewrite S8. cbn [exec_bind].
  assert (K : all_below 256 class_check = true) by (vm_compute; reflexivity).
  pose proof (all_below_spec _ _ b K ltac:(lia)) as Kb. unfold class_check in Kb.
  destruct (strconv.ParseUint (bit_group b 7) 2 0) as [res [e|]]; [discriminate|].
  apply Z.eqb_eq in Kb. subst res. unfold address_class.
  destruct (b <=? 127) eqn:C1.
  { replace (b >=? 0) with true by lia. reflexivity. }
  replace ((b >=? 0) && false) with false by (by rewrite andb_false_r).
  destruct (b <=? 191) eqn:C2.
  { replace (b >=? 128) with true by lia. reflexivity. }
  rewrite andb_false_r.
  destruct (b <=? 223) eqn:C3.
  { replace (b >=? 192) with true by lia. reflexivity. }
  rewrite andb_false_r.
  destruct (b <=? 239) eqn:C4.
  { replace (b >=? 224) with true by lia. reflexivity. }
  rewrite andb_false_r.
  replace (b >=? 240) with true by lia.
  replace (b <=? 255) with true by lia. reflexivity.
Qed.

(** X7. [GetClass] never panics and never answers ERROR on a 32-bit
    address: the answer is the class of the first octet, A up to 127, B up
    to 191, C up to 223, D up to 239 and E above. *)
Theorem GetClass_first_octet (a : Z) (desc : string) :
  is_uint32 a ->
  GetClass (mkIPv4Address a desc) = Done (address_class (a / 2 ^ 24)) /\
  address_class (a / 2 ^ 24) <> "ERROR".
Proof.
  intros Ha. unfold is_uint32, is_uint in Ha. split.
  - rewrite GetClass_octet. f_equal. f_equal. unfold wrap.
    rewrite Z.shiftr_div_pow2 by lia. apply Z.mod_small.
    change (2 ^ 8) with 256. change (2 ^ 24) with 16777216.
    change (2 ^ 32) with 4294967296 in Ha.
    Z.div_mod_to_equations; lia.
  - unfold address_class.
    repeat match goal with
           | |- context [?x <=? ?y] => destruct (x <=? y)
           end; discriminate.
Qed.

(** The theorem at 192.168.0.1, of class C. *)
Lemma GetClass_first_octet_witness :
  GetClass (mkIPv4Address 3232235521 "Address") =
  Done (address_class (3232235521 / 2 ^ 24)) /\
  address_class (3232235521 / 2 ^ 24) <> "ERROR".
Proof.
  apply (GetClass_first_octet 3232235521 "Address").
  unfold is_uint32, is_uint. lia.
Defined.

(** ** Numbers in decimal *)

Lemma byte_val_byte_of z : 0 <= z < 256 -> byte_val (fmt.byte_of z) = z.
Proof.
  intros Hz. unfold byte_val, fmt.byte_of.
  rewrite N_ascii_embedding by lia. lia.
Qed.

Lemma digits_value_app s1 s2 acc :
  digits_value (s1 ++ s2) acc = digits_value s2 (digits_value s1 acc).
Proof.
  revert acc. induction s1 as [|c s1 IH]; intros acc; [reflexivity|].
  cbn [append digits_value]. apply IH.
Qed.

Lemma all_digits_app s1 s2 :
  all_digits (s1 ++ s2) = all_digits s1 && all_digits s2.
Proof.
  induction s1 as [|c s1 IH]; [reflexivity|]. cbn. by rewrite IH, andb_assoc.
Qed.

Lemma digits_at_digit u :
  0 <= u < 10 ->
  is_digit (fmt.digits_at u) = true /\ byte_val (fmt.digits_at u) - 48 = u.
Proof.
  intros Hu.
  assert (C : u = 0 \/ u = 1 \/ u = 2 \/ u = 3 \/ u = 4 \/ u = 5 \/ u = 6 \/
              u = 7 \/ u = 8 \/ u = 9) by lia.
  repeat (destruct C as [-> | C]; [split; reflexivity|]). subst u.
  split; reflexivity.
Qed.

(** The loop of [fmtInteger] in base 10 writes, before what the buffer
    holds, the decimal digits of [u]: when the buffer has room for them. *)
Lemma fmtInteger_base10_digits room u buf :
  0 <= u < 10 ^ Z.of_nat room -> (0 < room)%nat ->
  exists pre,
    fmt.fmtInteger_base10 room u buf = (pre ++ buf)%string /\
    pre <> "" /\ all_digits pre = true /\ decimal_value pre = u.
Proof.
  revert u buf. induction room as [|room IH]; intros u buf Hu Hr; [lia|].
  cbn [fmt.fmtInteger_base10].
  destruct (u >=? 10) eqn:G.
  - assert (Hn : 0 <= u / 10 < 10 ^ Z.of_nat room).
    { rewrite Nat2Z.inj_succ, Z.pow_succ_r in Hu by lia.
      Z.div_mod_to_equations; lia. }
    assert (Hr' : (0 < room)%nat).
    { destruct room; [|lia]. change (10 ^ Z.of_nat 1) with 10 in Hu. lia. }
    destruct (IH (u / 10) (String (fmt.byte_of (48 + u - u / 10 * 10)) buf) Hn Hr')
      as (pre & E & Hne & Hd & Hv).
    exists (pre ++ String (fmt.byte_of (48 + u - u / 10 * 10)) "")%string.
    assert (Hb : byte_val (fmt.byte_of (48 + u - u / 10 * 10)) =
                 48 + u - u / 10 * 10).
    { apply byte_val_byte_of. Z.div_mod_to_equations; lia. }
    split; [|split; [|split]].
    + rewrite E. clear. induction pre as [|c pre IHp]; [reflexivity|].
      cbn. by rewrite IHp.
    + destruct pre; [congruence|discriminate].
    + rewrite all_digits_app, Hd. cbn [all_digits]. unfold is_digit. rewrite Hb.
      rewrite andb_true_l, andb_true_r. apply andb_true_iff.
      split; apply Z.leb_le; Z.div_mod_to_equations; lia.
    + unfold decimal_value in *. rewrite digits_value_app, Hv.
      cbn [digits_value]. rewrite Hb. lia.
  - destruct (digits_at_digit u ltac:(lia)) as [Hd Hv].
    exists (String (fmt.digits_at u) ""). split; [reflexivity|].
    split; [discriminate|]. split.
    + cbn [all_digits]. by rewrite Hd.
    + unfold decimal_value. cbn [digits_value]. lia.
Qed.

(** [Sprintf("%d", u)] on a number of 64 bits: at least one decimal digit,
    and the digits denote [u]. *)
Lemma fmtInteger_decimal u :
  0 <= u < 2 ^ 64 ->
  exists s,
    fmt.fmtInteger u 10 false None = Done s /\
    s <> "" /\ all_digits s = true /\ decimal_value s = u.
Proof.
  intros Hu.
  destruct (fmtInteger_base10_digits 68 u "") as (pre & E & Hne & Hd & Hv).
  { change (Z.of_nat 68) with 68. lia. }
  { lia. }
  exists pre. unfold fmt.fmtInteger. rewrite Z.eqb_refl.
  change (Z.to_nat 68) with 68%nat. rewrite E.
  assert (A : forall s, (s ++ "")%string = s).
  { induction s as [|c s IHs]; [reflexivity|]. cbn. by rewrite IHs. }
  rewrite A. split; [|auto].
  unfold fmt.pad. f_equal.
  destruct (68 - String.length pre)%nat; [reflexivity|].
  cbn [fmt.zero_fill].
  destruct (0 >? Z.of_nat (String.length pre)) eqn:G; [|reflexivity].
  rewrite Z.gtb_ltb in G. apply Z.ltb_lt in G. lia.
Qed.

(** X8. Parsing what [String] prints gives the address back: for every
    32-bit value, [String] returns decimal digits, at least one, and
    [strconv.ParseUint] in base 10 reads that value from them with a nil
    error. *)
Theorem String_ParseUint_roundtrip (a : Z) (desc : string) :
  is_uint32 a ->
  exists s,
    IPv4Address_String (mkIPv4Address a desc) = Done s /\
    s <> "" /\ all_digits s = true /\
    strconv.ParseUint s 10 0 = (a, None).
Proof.
  intros Ha. unfold is_uint32, is_uint in Ha.
  destruct (fmtInteger_decimal a) as (s & E & Hne & Hd & Hv); [lia|].
  exists s. split; [exact E|]. split; [exact Hne|]. split; [exact Hd|].
  rewrite ParseUint_decimal by (left; reflexivity).
  rewrite (digit_prefix_id s Hd), Hv.
  destruct (2 ^ 64 <=? a) eqn:G; [lia|].
  rewrite Hd. apply String.eqb_neq in Hne. rewrite Hne. reflexivity.
Qed.

(** The theorem at 3232235521, the address 192.168.0.1. *)
Lemma String_ParseUint_roundtrip_witness :
  exists s,
    IPv4Address_String (mkIPv4Address 3232235521 "Address") = Done s /\
    s <> "" /\ all_digits s = true /\
    strconv.ParseUint s 10 0 = (3232235521, None).
Proof.
  apply (String_ParseUint_roundtrip 3232235521 "Address").
  unfold is_uint32, is_uint. lia.
Defined.

(* ===================================================================== *)
(** * More on the network descriptor *)
(* ===================================================================== *)

Lemma land_le_l a m : 0 <= a -> 0 <= m -> Z.land a m <= a.
Proof.
  intros Ha Hm. pose proof (Z.add_lor_land a m) as E.
  pose proof (lor_bound_r m a m Ha Hm ltac:(lia)). lia.
Qed.

Lemma uint32_land_ones a : is_uint32 a -> Z.land a (Z.ones 32) = a.
Proof. intros Ha. rewrite <- wrap32_land_ones. apply wrap32_small, Ha. Qed.

(** The broadcast address has every bit of the address. *)
Lemma address_le_broadcast a m :
  is_uint32 a -> 0 <= m -> a <= Z.lor (and32 a m) (not32 m).
Proof.
  intros Ha Hm.
  assert (Hn : 0 <= not32 m) by apply wrap32_range.
  assert (Hd : 0 <= and32 a m).
  { apply Z.land_nonneg. left. apply Ha. }
  assert (E : Z.lor a (Z.lor (and32 a m) (not32 m)) = Z.lor (and32 a m) (not32 m)).
  { unfold and32, not32. rewrite wrap32_land_ones.
    rewrite <- (uint32_land_ones a Ha).
    apply Z.bits_inj'. intros i Hi.
    rewrite !Z.lor_spec, !Z.land_spec, Z.lnot_spec by assumption.
    destruct (Z.testbit a i), (Z.testbit m i), (Z.testbit (Z.ones 32) i);
      reflexivity. }
  rewrite <- E. apply lor_bound_l; [apply Ha| |lia].
  apply Z.lor_nonneg. split; assumption.
Qed.

(** X9. The block of a descriptor holds the address it was made from: for
    every pair of 32-bit values (address, mask), network <= address <=
    broadcast, the broadcast address lies in the same network (broadcast AND
    mask == network), and each of the seven numbers of the descriptor is a
    32-bit value. *)
Theorem NewNetwork_contains (a m : Z) :
  is_uint32 a -> is_uint32 m ->
  let n := NewNetwork a m in
  num (network n) <= a <= num (broadcast n) /\
  Z.land (num (broadcast n)) m = num (network n) /\
  Forall is_uint32
    [num (address n); num (mask n); num (network n); num (hostMin n);
     num (hostMax n); num (broadcast n); num (hostsPerNet n)].
Proof.
  intros Ha Hm n. subst n.
  destruct (broadcast_no_wrap a m Ha) as [W L].
  cbn [NewNetwork num network broadcast address mask hostMin hostMax hostsPerNet Addr].
  rewrite W, L.
  split; [split|split].
  - unfold and32. apply land_le_l; [apply Ha|apply Hm].
  - apply address_le_broadcast; [exact Ha|apply Hm].
  - rewrite Z.land_lor_distr_l.
    replace (Z.land (not32 m) m) with 0.
    + rewrite Z.lor_0_r. unfold and32.
      rewrite <- Z.land_assoc, Z.land_diag. reflexivity.
    + symmetry. unfold not32. rewrite wrap32_land_ones.
      apply Z.bits_inj'. intros i Hi.
      rewrite !Z.land_spec, Z.lnot_spec, Z.bits_0 by assumption.
      destruct (Z.testbit m i), (Z.testbit (Z.ones 32) i); reflexivity.
  - rewrite <- L, <- W.
    repeat (apply Forall_cons_2; [first [assumption | apply wrap32_range
                                        | apply and32_range; assumption]|]).
    apply Forall_nil_2.
Qed.

(** The theorem at 192.168.0.1 with the mask /25. *)
Lemma NewNetwork_contains_witness :
  let n := NewNetwork 3232235521 4294967168 in
  num (network n) <= 3232235521 <= num (broadcast n) /\
  Z.land (num (broadcast n)) 4294967168 = num (network n) /\
  Forall is_uint32
    [num (address n); num (mask n); num (network n); num (hostMin n);
     num (hostMax n); num (broadcast n); num (hostsPerNet n)].
Proof.
  apply (NewNetwork_contains 3232235521 4294967168);
    unfold is_uint32, is_uint; lia.
Defined.

(** X10. The host count of a descriptor depends on the mask alone: for
    every pair of 32-bit values (address, mask), hostsPerNet is
    2^32 - 2 - mask modulo 2^32, that is 2^32 - 2 - mask for every mask but
    /32, and 2^32 - 1 for the mask /32, where the subtraction wraps. *)
Theorem NewNetwork_hostsPerNet (a m : Z) :
  is_uint32 a -> is_uint32 m ->
  let n := NewNetwork a m in
  num (hostsPerNet n) = (2 ^ 32 - 2 - m) mod 2 ^ 32 /\
  (m <= 2 ^ 32 - 2 -> num (hostsPerNet n) = 2 ^ 32 - 2 - m) /\
  (m = 2 ^ 32 - 1 -> num (hostsPerNet n) = 2 ^ 32 - 1).
Proof.
  intros Ha Hm n. subst n.
  destruct (broadcast_no_wrap a m Ha) as [W _].
  cbn [NewNetwork num hostsPerNet Addr]. rewrite W.
  rewrite (not32_complement m Hm).
  assert (E : sub32 (and32 a m + (2 ^ 32 - 1 - m)) (add32 (and32 a m) 1) =
              (2 ^ 32 - 2 - m) mod 2 ^ 32).
  { unfold sub32, add32, wrap32, wrap. rewrite Zminus_mod_idemp_r.
    f_equal. lia. }
  rewrite E. unfold is_uint32, is_uint in Hm.
  split; [reflexivity|]. split.
  - intros H. apply Z.mod_small. lia.
  - intros ->. reflexivity.
Qed.

(** The theorem at 192.168.0.1 with the mask /25: 126 hosts. *)
Lemma NewNetwork_hostsPerNet_witness :
  let n := NewNetwork 3232235521 4294967168 in
  num (hostsPerNet n) = (2 ^ 32 - 2 - 4294967168) mod 2 ^ 32 /\
  (4294967168 <= 2 ^ 32 - 2 -> num (hostsPerNet n) = 2 ^ 32 - 2 - 4294967168) /\
  (4294967168 = 2 ^ 32 - 1 -> num (hostsPerNet n) = 2 ^ 32 - 1).
Proof.
  apply (NewNetwork_hostsPerNet 3232235521 4294967168);
    unfold is_uint32, is_uint; lia.
Defined.

(* ===================================================================== *)
(** * More on the subnet partitioner *)
(* ===================================================================== *)

(** The mask of a prefix length has as many ones as the prefix is long:
    checked on each of the 33 prefix lengths. *)
Lemma OnesCount32_mask_of n : 0 <= n <= 32 -> bits.OnesCount32 (mask_of n) = n.
Proof.
  intros Hn.
  assert (K : all_below 33 (fun n => bits.OnesCount32 (mask_of n) =? n) = true)
    by (vm_compute; reflexivity).
  pose proof (all_below_spec _ _ n K ltac:(lia)) as Kn. cbv beta in Kn. lia.
Qed.

Lemma mask_of_range c : 0 <= c <= 32 -> is_uint32 (mask_of c).
Proof.
  intros Hc. unfold is_uint32, is_uint, mask_of.
  assert (0 < 2 ^ (32 - c)) by (apply Z.pow_pos_nonneg; lia).
  assert (2 ^ (32 - c) <= 2 ^ 32) by (apply Z.pow_le_mono_r; lia).
  lia.
Qed.

Lemma pow2_split c : 0 <= c <= 32 -> 2 ^ 32 = 2 ^ c * 2 ^ (32 - c).
Proof. intros Hc. rewrite <- Z.pow_add_r by lia. f_equal. lia. Qed.

(** Masking with a prefix mask rounds down to a multiple of the block
    size. *)
Lemma land_mask_of x c :
  is_uint32 x -> 0 <= c <= 32 ->
  Z.land x (mask_of c) = x - x mod 2 ^ (32 - c).
Proof.
  intros Hx Hc. set (k := 32 - c).
  assert (Hk : 0 <= k) by (unfold k; lia).
  assert (M : mask_of c = Z.shiftl (Z.ones c) k).
  { unfold mask_of. fold k. rewrite Z.shiftl_mul_pow2, Z.ones_equiv by lia.
    rewrite (pow2_split c Hc). fold k. lia. }
  assert (R : x - x mod 2 ^ k = Z.shiftl (Z.shiftr x k) k).
  { rewrite Z.shiftl_mul_pow2, Z.shiftr_div_pow2 by lia.
    assert (0 < 2 ^ k) by (apply Z.pow_pos_nonneg; lia).
    pose proof (Z.div_mod x (2 ^ k) ltac:(lia)). lia. }
  rewrite M, R. apply Z.bits_inj'. intros i Hi.
  rewrite Z.land_spec, !Z.shiftl_spec by assumption.
  destruct (Z_lt_le_dec i k) as [Lt|Ge].
  - rewrite (Z.testbit_neg_r (Z.ones c)), (Z.testbit_neg_r (Z.shiftr x k)) by lia.
    apply andb_false_r.
  - rewrite Z.shiftr_spec by lia. replace (i - k + k) with i by lia.
    rewrite Z.testbit_ones_nonneg by lia.
    destruct (i - k <? c) eqn:E; [apply andb_true_r|].
    rewrite andb_false_r.
    rewrite <- (Z.mod_small x (2 ^ 32)) by apply Hx.
    rewrite Z.mod_pow2_bits_high; [reflexivity|]. unfold k in *. lia.
Qed.

(** A descriptor made with a prefix mask: the network address is the
    address rounded down to the block, and the block is [2^(32-c)] long. *)
Lemma NewNetwork_mask_of x c :
  is_uint32 x -> 0 <= c <= 32 ->
  num (network (NewNetwork x (mask_of c))) = x - x mod 2 ^ (32 - c) /\
  num (broadcast (NewNetwork x (mask_of c))) =
  x - x mod 2 ^ (32 - c) + 2 ^ (32 - c) - 1.
Proof.
  intros Hx Hc. cbn [NewNetwork num network broadcast Addr].
  destruct (broadcast_no_wrap x (mask_of c) Hx) as [W _]. rewrite W.
  rewrite (not32_complement _ (mask_of_range c Hc)).
  unfold and32. rewrite (land_mask_of x c Hx Hc). unfold mask_of.
  split; [reflexivity|lia].
Qed.

(** A multiple of the block size, taken modulo 2^32, is one still. *)
Lemma block_multiple_wrap c q :
  0 <= c <= 32 -> (q * 2 ^ (32 - c)) mod 2 ^ 32 mod 2 ^ (32 - c) = 0.
Proof.
  intros Hc. rewrite (pow2_split c Hc) at 1.
  assert (0 < 2 ^ (32 - c)) by (apply Z.pow_pos_nonneg; lia).
  assert (0 < 2 ^ c) by (apply Z.pow_pos_nonneg; lia).
  rewrite Z.mul_mod_distr_r by lia. apply Z.mod_mul. lia.
Qed.

(** The blocks of the chain: subnet [i] starts [i] blocks after the block
    of the first address, around 2^32. *)
Lemma subnet_chain_blocks c n :
  0 <= c <= 32 ->
  forall x i d,
    is_uint32 x ->
    subnet_chain n x (mask_of c) !! i = Some d ->
    num (network d) =
      (x - x mod 2 ^ (32 - c) + Z.of_nat i * 2 ^ (32 - c)) mod 2 ^ 32 /\
    num (broadcast d) = num (network d) + 2 ^ (32 - c) - 1.
Proof.
  intros Hc. induction n as [|n IH]; intros x i d Hx Hd; [discriminate|].
  assert (P : 0 < 2 ^ (32 - c)) by (apply Z.pow_pos_nonneg; lia).
  assert (P32 : 2 ^ (32 - c) <= 2 ^ 32) by (apply Z.pow_le_mono_r; lia).
  destruct (NewNetwork_mask_of x c Hx Hc) as [N B].
  pose proof (Z.mod_pos_bound x (2 ^ (32 - c)) P) as Hr.
  pose proof (Z.div_mod x (2 ^ (32 - c)) ltac:(lia)) as Dx.
  cbn [subnet_chain] in Hd. destruct i as [|i].
  - cbn in Hd. injection Hd as <-. rewrite B, N. split; [|reflexivity].
    rewrite Z.add_0_r. symmetry. apply Z.mod_small.
    unfold is_uint32, is_uint in Hx.
    pose proof (Z.mod_le x (2 ^ (32 - c)) ltac:(lia) P). lia.
  - cbn [lookup list_lookup] in Hd. change (subnet_chain n ?a ?m !! i) with
      (list_lookup i (subnet_chain n a m)) in Hd.
    set (x' := add32 (num (broadcast (NewNetwork x (mask_of c)))) 1) in Hd.
    assert (Hx' : is_uint32 x') by apply wrap32_range.
    assert (E : x' = ((x / 2 ^ (32 - c) + 1) * 2 ^ (32 - c)) mod 2 ^ 32).
    { unfold x'. rewrite B. unfold add32, wrap32, wrap. f_equal. lia. }
    assert (A : x' mod 2 ^ (32 - c) = 0).
    { rewrite E. apply block_multiple_wrap, Hc. }
    destruct (IH x' i d Hx' Hd) as [N' B']. split; [|exact B'].
    rewrite N', A, Z.sub_0_r.
    assert (E' : x' = (x - x mod 2 ^ (32 - c) + 2 ^ (32 - c)) mod 2 ^ 32).
    { rewrite E. f_equal. lia. }
    rewrite E', Zplus_mod_idemp_l. f_equal. lia.
Qed.

(** X11. On prefix masks the partitioner lays equal blocks end to end: for
    a 32-bit address and prefix lengths 0 <= p < c <= 32, CreateSubnets
    succeeds with 2^(c-p) descriptors, and descriptor i has as network
    address the address rounded down to the child block plus i blocks of
    2^(32-c) addresses, modulo 2^32, and as broadcast address the last
    address of that block. *)
Theorem CreateSubnets_blocks (a p c : Z) :
  is_uint32 a -> 0 <= p < c -> c <= 32 ->
  exists subnets,
    CreateSubnets a (mask_of p) (mask_of c) = Done (subnets, None) /\
    Z.of_nat (length subnets) = 2 ^ (c - p) /\
    forall (i : nat) (d : Network),
      subnets !! i = Some d ->
      num (network d) =
        (Z.land a (mask_of c) + Z.of_nat i * 2 ^ (32 - c)) mod 2 ^ 32 /\
      num (broadcast d) = num (network d) + 2 ^ (32 - c) - 1.
Proof.
  intros Ha Hp Hc. rewrite CreateSubnets_unfold.
  rewrite !OnesCount32_mask_of by lia.
  destruct (c <=? p) eqn:E; [lia|]. eexists. split; [reflexivity|].
  split.
  - rewrite subnet_chain_length, Z2Nat.id; [reflexivity|].
    apply Z.pow_nonneg. lia.
  - intros i d Hd. rewrite land_mask_of by (assumption || lia).
    apply (subnet_chain_blocks c _ ltac:(lia) a i d Ha Hd).
Qed.

(** The theorem at the test of the repository: 192.168.0.1, /24 into /25. *)
Lemma CreateSubnets_blocks_witness :
  exists subnets,
    CreateSubnets 3232235521 (mask_of 24) (mask_of 25) = Done (subnets, None) /\
    Z.of_nat (length subnets) = 2 ^ (25 - 24) /\
    forall (i : nat) (d : Network),
      subnets !! i = Some d ->
      num (network d) =
        (Z.land 3232235521 (mask_of 25) + Z.of_nat i * 2 ^ (32 - 25)) mod 2 ^ 32 /\
      num (broadcast d) = num (network d) + 2 ^ (32 - 25) - 1.
Proof.
  apply (CreateSubnets_blocks 3232235521 24 25); [|lia..].
  unfold is_uint32, is_uint. lia.
Defined.

(** When the address lies in the first child block of the parent, no block
    of the chain reaches 2^32. *)
Lemma first_block_no_wrap a p c i :
  is_uint32 a -> 0 <= p < c -> c <= 32 ->
  a mod 2 ^ (32 - c) = a mod 2 ^ (32 - p) ->
  0 <= i < 2 ^ (c - p) ->
  0 <= a - a mod 2 ^ (32 - p) + i * 2 ^ (32 - c) /\
  a - a mod 2 ^ (32 - p) + i * 2 ^ (32 - c) + 2 ^ (32 - c)
    <= a - a mod 2 ^ (32 - p) + 2 ^ (32 - p) /\
  a - a mod 2 ^ (32 - p) + 2 ^ (32 - p) <= 2 ^ 32.
Proof.
  intros Ha Hp Hc Hblock Hi. unfold is_uint32, is_uint in Ha.
  assert (K : 0 < 2 ^ (32 - c)) by (apply Z.pow_pos_nonneg; lia).
  assert (PP : 0 < 2 ^ (32 - p)) by (apply Z.pow_pos_nonneg; lia).
  assert (Q : 2 ^ (32 - p) = 2 ^ (c - p) * 2 ^ (32 - c)).
  { rewrite <- Z.pow_add_r by lia. f_equal. lia. }
  assert (T : 2 ^ 32 = 2 ^ p * 2 ^ (32 - p)) by (apply pow2_split; lia).
  pose proof (Z.div_mod a (2 ^ (32 - p)) ltac:(lia)) as D.
  pose proof (Z.mod_pos_bound a (2 ^ (32 - p)) PP) as R.
  assert (Hq : 0 <= a / 2 ^ (32 - p)) by (apply Z.div_pos; lia).
  assert (Hq' : a / 2 ^ (32 - p) < 2 ^ p).
  { apply Z.div_lt_upper_bound; lia. }
  assert (I1 : 0 <= i * 2 ^ (32 - c)) by (apply Z.mul_nonneg_nonneg; lia).
  assert (I2 : i * 2 ^ (32 - c) <= (2 ^ (c - p) - 1) * 2 ^ (32 - c)).
  { apply Z.mul_le_mono_nonneg_r; lia. }
  assert (I3 : 2 ^ (32 - p) * (a / 2 ^ (32 - p)) <=
               2 ^ (32 - p) * (2 ^ p - 1)).
  { apply Z.mul_le_mono_nonneg_l; lia. }
  assert (I4 : 0 <= 2 ^ (32 - p) * (a / 2 ^ (32 - p)))
    by (apply Z.mul_nonneg_nonneg; lia).
  lia.
Qed.

(** X12. On prefix masks, from an address in the first child block of the
    parent (address AND childMask == address AND parentMask), the subnets
    tile the parent network: descriptor i starts i blocks after the parent
    network address, without wrapping, every block lies between the parent
    network address and the parent broadcast address, and the broadcast
    address of the last descriptor is the broadcast address of the
    parent. *)
Theorem CreateSubnets_tiles_parent (a p c : Z) :
  is_uint32 a -> 0 <= p < c -> c <= 32 ->
  Z.land a (mask_of c) = Z.land a (mask_of p) ->
  let parent := NewNetwork a (mask_of p) in
  exists subnets final,
    CreateSubnets a (mask_of p) (mask_of c) = Done (subnets, None) /\
    (forall (i : nat) (d : Network),
       subnets !! i = Some d ->
       num (network d) = num (network parent) + Z.of_nat i * 2 ^ (32 - c) /\
       num (network parent) <= num (network d) /\
       num (broadcast d) <= num (broadcast parent)) /\
    last subnets = Some final /\
    num (broadcast final) = num (broadcast parent).
Proof.
  intros Ha Hp Hc Hblock parent.
  destruct (NewNetwork_mask_of a p Ha ltac:(lia)) as [PN PB]. fold parent in PN, PB.
  rewrite !land_mask_of in Hblock by (assumption || lia).
  assert (Hmod : a mod 2 ^ (32 - c) = a mod 2 ^ (32 - p)) by lia.
  rewrite CreateSubnets_unfold. rewrite !OnesCount32_mask_of by lia.
  destruct (c <=? p) eqn:E; [lia|].
  set (n := Z.to_nat (2 ^ (c - p))).
  assert (Hn : Z.of_nat n = 2 ^ (c - p)).
  { unfold n. rewrite Z2Nat.id; [reflexivity|]. apply Z.pow_nonneg. lia. }
  assert (Hpos : 0 < 2 ^ (c - p)) by (apply Z.pow_pos_nonneg; lia).
  assert (Q : 2 ^ (32 - p) = 2 ^ (c - p) * 2 ^ (32 - c)).
  { rewrite <- Z.pow_add_r by lia. f_equal. lia. }
  assert (Block : forall (i : nat) (d : Network),
            subnet_chain n a (mask_of c) !! i = Some d ->
            num (network d) = num (network parent) + Z.of_nat i * 2 ^ (32 - c) /\
            num (broadcast d) = num (network d) + 2 ^ (32 - c) - 1 /\
            num (network parent) <= num (network d) /\
            num (broadcast d) <= num (broadcast parent)).
  { intros i d Hd.
    assert (Hi : (i < n)%nat).
    { apply lookup_lt_Some in Hd. by rewrite subnet_chain_length in Hd. }
    destruct (subnet_chain_blocks c n ltac:(lia) a i d Ha Hd) as [N B].
    destruct (first_block_no_wrap a p c (Z.of_nat i) Ha Hp Hc Hmod ltac:(lia))
      as (W1 & W2 & W3).
    assert (K : 0 < 2 ^ (32 - c)) by (apply Z.pow_pos_nonneg; lia).
    rewrite Hmod in N. rewrite Z.mod_small in N by lia.
    rewrite B, N, PN, PB. repeat split; lia. }
  assert (Hlast : is_Some (subnet_chain n a (mask_of c) !! (n - 1)%nat)).
  { apply lookup_lt_is_Some_2. rewrite subnet_chain_length. lia. }
  destruct Hlast as [final Hfinal].
  exists (subnet_chain n a (mask_of c)), final.
  split; [reflexivity|]. split.
  - intros i d Hd. destruct (Block i d Hd) as (N & _ & L & U). by repeat split.
  - split.
    + rewrite last_lookup, subnet_chain_length.
      replace (pred n) with (n - 1)%nat by lia. exact Hfinal.
    + destruct (Block _ _ Hfinal) as (N & B & _). rewrite B, N, PB, PN.
      rewrite Nat2Z.inj_sub by lia. rewrite Hn, Q. change (Z.of_nat 1) with 1. lia.
Qed.

(** The theorem at 192.168.0.1, /24 into /26. *)
Lemma CreateSubnets_tiles_parent_witness :
  let parent := NewNetwork 3232235521 (mask_of 24) in
  exists subnets final,
    CreateSubnets 3232235521 (mask_of 24) (mask_of 26) = Done (subnets, None) /\
    (forall (i : nat) (d : Network),
       subnets !! i = Some d ->
       num (network d) = num (network parent) + Z.of_nat i * 2 ^ (32 - 26) /\
       num (network parent) <= num (network d) /\
       num (broadcast d) <= num (broadcast parent)) /\
    last subnets = Some final /\
    num (broadcast final) = num (broadcast parent).
Proof.
  apply (CreateSubnets_tiles_parent 3232235521 24 26);
    [unfold is_uint32, is_uint; lia|lia|lia|reflexivity].
Defined.

(** X13. The partitioner never panics, and what it compares is the number
    of one bits of the two masks, whatever their shape: with no more ones
    in the child mask than in the parent mask it returns the nil slice and
    the error PrefixTooSmall; otherwise it returns, with a nil error, at
    least two descriptors, each one made by NewNetwork from its own address
    field and the child mask, so that no field of a descriptor is nil. *)
Theorem CreateSubnets_never_panics (a m sm : Z) :
  (bits.OnesCount32 sm <= bits.OnesCount32 m /\
   CreateSubnets a m sm = Done ([], Some ErrPrefixTooSmall)) \/
  (bits.OnesCount32 m < bits.OnesCount32 sm /\
   exists subnets,
     CreateSubnets a m sm = Done (subnets, None) /\
     (2 <= length subnets)%nat /\
     Forall (fun d => d = NewNetwork (num (address d)) sm) subnets).
Proof.
  rewrite CreateSubnets_unfold.
  pose proof (OnesCount32_range m) as Hm. pose proof (OnesCount32_range sm) as Hs.
  destruct (bits.OnesCount32 sm <=? bits.OnesCount32 m) eqn:E.
  - left. split; [lia|reflexivity].
  - right. split; [lia|]. eexists. split; [reflexivity|]. split.
    + rewrite subnet_chain_length.
      assert (2 ^ 1 <= 2 ^ (bits.OnesCount32 sm - bits.OnesCount32 m))
        by (apply Z.pow_le_mono_r; lia).
      change (2 ^ 1) with 2 in *. lia.
    + generalize (Z.to_nat (2 ^ (bits.OnesCount32 sm - bits.OnesCount32 m))).
      intros n. generalize a. clear.
      induction n as [|n IH]; intros a; cbn [subnet_chain]; constructor.
      * reflexivity.
      * apply IH.
Qed.

(* ===================================================================== *)
(** * The report of a descriptor *)
(* ===================================================================== *)

Lemma count_newlines_app s1 s2 :
  count_newlines (s1 ++ s2) = (count_newlines s1 + count_newlines s2)%nat.
Proof.
  induction s1 as [|c s1 IH]; [reflexivity|]. cbn [append count_newlines].
  rewrite IH. lia.
Qed.

Lemma all_digits_no_newline s : all_digits s = true -> count_newlines s = 0%nat.
Proof.
  induction s as [|c s IH]; [reflexivity|]. cbn [all_digits count_newlines].
  intros H. apply andb_true_iff in H as [Hc Hs]. rewrite (IH Hs).
  destruct (Ascii.eqb_spec c "010") as [->|]; [|reflexivity].
  vm_compute in Hc. discriminate.
Qed.

Lemma bit_char_no_newline a i s :
  count_newlines (String (bit_char a i) s) = count_newlines s.
Proof. unfold bit_char. destruct (Z.testbit a i); reflexivity. Qed.

Lemma bit_group_no_newline a hi s :
  count_newlines (bit_group a hi ++ s) = count_newlines s.
Proof.
  unfold bit_group. cbn [append]. rewrite !bit_char_no_newline. reflexivity.
Qed.

Lemma Dots_no_newline a desc :
  exists s, IPv4Address_Dots (mkIPv4Address a desc) = Done s /\
            count_newlines s = 0%nat.
Proof.
  eexists. split; [apply IPv4Address_Dots_octets|].
  destruct (fmtInteger_byte _ (wrap8_range (Z.shiftr a 24))) as (_ & (_ & D0 & _) & _).
  destruct (fmtInteger_byte _ (wrap8_range (Z.shiftr a 16))) as (_ & (_ & D1 & _) & _).
  destruct (fmtInteger_byte _ (wrap8_range (Z.shiftr a 8))) as (_ & (_ & D2 & _) & _).
  destruct (fmtInteger_byte _ (wrap8_range a)) as (_ & (_ & D3 & _) & _).
  cbn [join]. rewrite count_newlines_app. cbn [count_newlines].
  rewrite count_newlines_app. cbn [count_newlines].
  rewrite count_newlines_app. cbn [count_newlines].
  rewrite !all_digits_no_newline by assumption. reflexivity.
Qed.

Lemma Bits_no_newline a desc :
  exists s, IPv4Address_Bits (mkIPv4Address a desc) = Done s /\
            count_newlines s = 0%nat.
Proof.
  eexists. split; [apply IPv4Address_Bits_groups|].
  unfold bits_string.
  rewrite bit_group_no_newline. cbn [append count_newlines].
  rewrite bit_group_no_newline. cbn [append count_newlines].
  rewrite bit_group_no_newline. cbn [append count_newlines].
  change (bit_group a 7) with (bit_group a 7 ++ "")%string.
  apply bit_group_no_newline.
Qed.

Lemma append_assoc_s (s1 s2 s3 : string) :
  ((s1 ++ s2) ++ s3 = s1 ++ (s2 ++ s3))%string.
Proof. induction s1 as [|c s1 IH]; [reflexivity|]. cbn. by rewrite IH. Qed.

(** [Print] writes one line: the description, a colon, and a text without
    newline, then a newline. *)
Lemma Print_ptr_line v desc extended :
  exists body,
    Print_ptr (Some (mkIPv4Address v desc)) extended =
      Done ((desc ++ ":" ++ body) ++ newline)%string /\
    count_newlines body = 0%nat.
Proof.
  unfold Print_ptr. cbn [deref exec_bind]. unfold IPv4Address_Print.
  destruct (Dots_no_newline v desc) as (dots & -> & Cd).
  destruct (Bits_no_newline v desc) as (bits & Eb & Cb).
  destruct extended; cbn [exec_bind].
  - rewrite Eb. cbn [exec_bind Description].
    exists (tab ++ dots ++ tab ++ bits)%string. split.
    + rewrite !append_assoc_s. reflexivity.
    + rewrite !count_newlines_app, Cd, Cb. reflexivity.
  - cbn [Description]. exists (tab ++ dots)%string. split.
    + rewrite !append_assoc_s. reflexivity.
    + rewrite !count_newlines_app, Cd. reflexivity.
Qed.

Lemma OnesCount_range x : 0 <= bits.OnesCount x <= 64.
Proof.
  unfold bits.OnesCount.
  assert (H : 0 <= wrap64 x < 2 ^ 64) by (apply Z.mod_pos_bound; lia).
  destruct (wrap64 x) as [|p|p]; try lia.
  pose proof (ones_bound p 64 ltac:(lia)). lia.
Qed.

Lemma fmtInteger_line u :
  0 <= u < 2 ^ 64 ->
  exists s, fmt.fmtInteger u 10 false None = Done s /\ count_newlines s = 0%nat.
Proof.
  intros Hu. destruct (fmtInteger_decimal u Hu) as (s & E & _ & D & _).
  exists s. split; [exact E|]. apply all_digits_no_newline, D.
Qed.

Lemma address_class_no_newline b : count_newlines (address_class b) = 0%nat.
Proof.
  unfold address_class.
  repeat match goal with
         | |- context [?x <=? ?y] => destruct (x <=? y)
         end; reflexivity.
Qed.

(** A line of the report: it starts with its label and holds no newline. *)
Ltac report_line rest :=
  constructor;
  [exists rest; split;
   [reflexivity
   |rewrite ?count_newlines_app;
    repeat match goal with
           | H : count_newlines ?x = 0%nat |- context [count_newlines ?x] =>
               rewrite H
           end;
    reflexivity]|].

(** X14. [Network.Print] on a descriptor made by NewNetwork from 32-bit
    values never panics, whatever the three flags, and writes whole lines
    and nothing else: the text is a list of lines, each followed by a
    newline and holding none.  The lines start, in this order, with
    Address:, Netmask: and CIDR Prefix: when printDescription is set, with
    Network:, with CLASS when printClass is set, and with HostMin:,
    HostMax:, Broadcast: and Hosts/Net:, which makes five lines, three more
    with printDescription and one more with printClass. *)
Theorem Network_Print_lines (a m : Z) (printDescription extended printClass : bool) :
  is_uint32 a -> is_uint32 m ->
  exists lines,
    Network_Print (NewNetwork a m) printDescription extended printClass =
      Done (unlines lines) /\
    Forall2 (fun label line =>
               exists rest, line = (label ++ rest)%string /\
                            count_newlines line = 0%nat)
      (report_labels printDescription printClass) lines /\
    length lines =
      (5 + (if printDescription then 3 else 0) + (if printClass then 1 else 0))%nat.
Proof.
  intros Ha Hm. unfold Network_Print.
  cbn [NewNetwork address mask network hostMin hostMax broadcast hostsPerNet].
  destruct (Print_ptr_line a "Address" extended) as (b1 & E1 & C1).
  destruct (Print_ptr_line m "Netmask" extended) as (b2 & E2 & C2).
  destruct (Print_ptr_line (and32 a m) "Network" extended) as (b3 & E3 & C3).
  destruct (Print_ptr_line (add32 (and32 a m) 1) "HostMin" extended)
    as (b4 & E4 & C4).
  destruct (Print_ptr_line (sub32 (add32 (and32 a m) (not32 m)) 1) "HostMax"
              extended) as (b5 & E5 & C5).
  destruct (Print_ptr_line (add32 (and32 a m) (not32 m)) "Broadcast" extended)
    as (b6 & E6 & C6).
  pose proof (OnesCount_range m) as Ho.
  destruct (fmtInteger_line (bits.OnesCount m) ltac:(lia)) as (cidr & E7 & C7).
  pose proof (wrap32_range (add32 (and32 a m) (not32 m) - add32 (and32 a m) 1))
    as Hh.
  fold (sub32 (add32 (and32 a m) (not32 m)) (add32 (and32 a m) 1)) in Hh.
  unfold is_uint32, is_uint in Hh.
  destruct (fmtInteger_line
              (sub32 (add32 (and32 a m) (not32 m)) (add32 (and32 a m) 1))
              ltac:(lia)) as (count & E8 & C8).
  pose proof (GetClass_octet a "Address") as E9.
  pose proof (address_class_no_newline (wrap 8 (Z.shiftr a 24))) as C9.
  set (class := address_class (wrap 8 (Z.shiftr a 24))) in *.
  rewrite E1, E2, E3, E4, E5, E6. cbn [deref exec_bind Addr].
  rewrite E7, E8, E9.
  destruct printDescription, printClass; cbn [exec_bind].
  - exists ["Address" ++ ":" ++ b1; "Netmask" ++ ":" ++ b2;
            "CIDR Prefix:" ++ tab ++ "/" ++ cidr; "Network" ++ ":" ++ b3;
            "CLASS " ++ class; "HostMin" ++ ":" ++ b4; "HostMax" ++ ":" ++ b5;
            "Broadcast" ++ ":" ++ b6; "Hosts/Net:" ++ tab ++ count]%string.
    split; [cbn [unlines]; rewrite !append_assoc_s; reflexivity|].
    split; [|reflexivity]. unfold report_labels. cbn [app].
    report_line b1. report_line b2. report_line (tab ++ "/" ++ cidr)%string.
    report_line b3. report_line class. report_line b4. report_line b5.
    report_line b6. report_line (tab ++ count)%string. constructor.
  - exists ["Address" ++ ":" ++ b1; "Netmask" ++ ":" ++ b2;
            "CIDR Prefix:" ++ tab ++ "/" ++ cidr; "Network" ++ ":" ++ b3;
            "HostMin" ++ ":" ++ b4; "HostMax" ++ ":" ++ b5;
            "Broadcast" ++ ":" ++ b6; "Hosts/Net:" ++ tab ++ count]%string.
    split; [cbn [unlines]; rewrite !append_assoc_s; reflexivity|].
    split; [|reflexivity]. unfold report_labels. cbn [app].
    report_line b1. report_line b2. report_line (tab ++ "/" ++ cidr)%string.
    report_line b3. report_line b4. report_line b5.
    report_line b6. report_line (tab ++ count)%string. constructor.
  - exists ["Network" ++ ":" ++ b3;
            "CLASS " ++ class; "HostMin" ++ ":" ++ b4; "HostMax" ++ ":" ++ b5;
            "Broadcast" ++ ":" ++ b6; "Hosts/Net:" ++ tab ++ count]%string.
    split; [cbn [unlines]; rewrite !append_assoc_s; reflexivity|].
    split; [|reflexivity]. unfold report_labels. cbn [app].
    report_line b3. report_line class. report_line b4. report_line b5.
    report_line b6. report_line (tab ++ count)%string. constructor.
  - exists ["Network" ++ ":" ++ b3;
            "HostMin" ++ ":" ++ b4; "HostMax" ++ ":" ++ b5;
            "Broadcast" ++ ":" ++ b6; "Hosts/Net:" ++ tab ++ count]%string.
    split; [cbn [unlines]; rewrite !append_assoc_s; reflexivity|].
    split; [|reflexivity]. unfold report_labels. cbn [app].
    report_line b3. report_line b4. report_line b5.
    report_line b6. report_line (tab ++ count)%string. constructor.
Qed.

(** The theorem at 192.168.0.1 with the mask /25 and every flag set. *)
Lemma Network_Print_lines_witness :
  exists lines,
    Network_Print (NewNetwork 3232235521 4294967168) true true true =
      Done (unlines lines) /\
    Forall2 (fun label line =>
               exists rest, line = (label ++ rest)%string /\
                            count_newlines line = 0%nat)
      (report_labels true true) lines /\
    length lines =
      (5 + (if true then 3 else 0) + (if true then 1 else 0))%nat.
Proof.
  apply (Network_Print_lines 3232235521 4294967168 true true true);
    unfold is_uint32, is_uint; lia.
Defined.

(* ===================================================================== *)
(** * Prefix lengths and masks *)
(* ===================================================================== *)

(** X15. Counting the ones of a parsed prefix gives the prefix back: for
    every integer N in [0,32], ParseMask on "/" followed by the decimal
    numeral of N returns a mask in which [bits.OnesCount32], as
    CreateSubnets counts, and [bits.OnesCount], as the report counts, both
    find N ones, and which [prefixToMask] computes from N without
    rounding. *)
Theorem ParseMask_OnesCount_roundtrip (N : Z) :
  0 <= N <= 32 ->
  exists v,
    ParseMask (String "/" (decimal N)) = Done (v, None) /\
    v = prefixToMask N /\
    bits.OnesCount32 v = N /\
    bits.OnesCount v = N.
Proof.
  intros HN.
  assert (K : all_below 33 (fun N =>
                match ParseMask (String "/" (decimal N)) with
                | Done (v, None) =>
                    (v =? prefixToMask N) && (bits.OnesCount32 v =? N) &&
                    (bits.OnesCount v =? N)
                | _ => false
                end) = true) by (vm_compute; reflexivity).
  pose proof (all_below_spec _ _ N K ltac:(lia)) as KN. cbv beta in KN.
  destruct (ParseMask (String "/" (decimal N))) as [[v [e|]]|msg];
    [discriminate| |discriminate].
  apply andb_true_iff in KN as [KN K3]. apply andb_true_iff in KN as [K1 K2].
  exists v. split; [reflexivity|]. repeat split; lia.
Qed.

(** The theorem at /25, the mask of the test of the repository. *)
Lemma ParseMask_OnesCount_roundtrip_witness :
  exists v,
    ParseMask (String "/" (decimal 25)) = Done (v, None) /\
    v = prefixToMask 25 /\
    bits.OnesCount32 v = 25 /\
    bits.OnesCount v = 25.
Proof. apply (ParseMask_OnesCount_roundtrip 25). lia. Defined.
